(** * Instascribe: the per-conversation normalisation pipeline

    A shallow embedding of [instascribe.py]: text repair ([fix_encoding],
    [clean_url]), call and caption formatting ([format_duration],
    [clean_caption]), and the transcript loop of
    [process_single_conversation], followed by the properties of the
    specification that are checked against it.

    Conventions.
    - A Python [str] is the list of its Unicode code points ([pystr]);
      [len] is [length].  A [bytes] value is a [list byte].
    - Python integers are unbounded: [Z], no wrap-around.
    - A JSON object whose values are strings (the share payload, the reply
      reference, the label table) is a [gmap pystr pystr]; a record with
      option-typed fields is used for the message itself, [None] standing
      for an absent key.
    - What the interpreter and the machine decide (Unicode case mapping,
      the [\w] class, the local time zone, float formatting, the current
      date) is collected in the class [Host]. *)

From Stdlib Require Import ZArith NArith Ascii String DecimalString DecimalZ.
From Stdlib.Strings Require Import Byte.
From stdpp Require Import gmap list sorting.

Local Open Scope Z_scope.

(** ** Python strings *)

Module Py.

Definition pystr := list N.

(** The code points of an ASCII literal of the source. *)
Definition lit (s : string) : pystr :=
  map N_of_ascii (list_ascii_of_string s).

Definition ch (c : ascii) : N := N_of_ascii c.

Definition str_eqb (a b : pystr) : bool := bool_decide (a = b).

(** Truthiness of a string, of a list and of a dict: non-empty. *)
Definition truthy {A} (l : list A) : bool :=
  match l with [] => false | _ :: _ => true end.

Definition dict_truthy (d : gmap pystr pystr) : bool :=
  negb (bool_decide (d = ∅)).

(** [d.get(k, dflt)] *)
Definition get (d : gmap pystr pystr) (k : pystr) (dflt : pystr) : pystr :=
  default dflt (d !! k).

Fixpoint startswith (p s : pystr) : bool :=
  match p, s with
  | [], _ => true
  | _ :: _, [] => false
  | a :: p', b :: s' => (a =? b)%N && startswith p' s'
  end.

Definition endswith (p s : pystr) : bool := startswith (rev p) (rev s).

(** [p in s]: [p] occurs in [s] as a contiguous run. *)
Fixpoint contains (p s : pystr) : bool :=
  startswith p s || match s with [] => false | _ :: s' => contains p s' end.

(** [s.split(c)] for a one-character separator: never empty, and
    [split c "" = [""]]. *)
Fixpoint split (c : N) (s : pystr) : list pystr :=
  match s with
  | [] => [[]]
  | x :: s' =>
      if (x =? c)%N then [] :: split c s'
      else match split c s' with
           | [] => [[x]]
           | w :: ws => (x :: w) :: ws
           end
  end.

(** [sep.join(ls)] *)
Fixpoint join (sep : pystr) (ls : list pystr) : pystr :=
  match ls with
  | [] => []
  | [l] => l
  | l :: ls' => l ++ sep ++ join sep ls'
  end.

(** [s.replace(a, b)] for one-character [a] and [b]. *)
Definition replace (a b : N) (s : pystr) : pystr :=
  map (fun x => if (x =? a)%N then b else x) s.

(** The characters [str.strip()] removes: CPython's [Py_UNICODE_ISSPACE]. *)
Definition isspace (c : N) : bool :=
  ((9 <=? c) && (c <=? 13) || (28 <=? c) && (c <=? 32)
   || (c =? 133) || (c =? 160) || (c =? 5760)
   || (8192 <=? c) && (c <=? 8202)
   || (c =? 8232) || (c =? 8233) || (c =? 8239) || (c =? 8287)
   || (c =? 12288))%N.

Fixpoint lstrip (s : pystr) : pystr :=
  match s with
  | [] => []
  | c :: s' => if isspace c then lstrip s' else s
  end.

Definition rstrip (s : pystr) : pystr := rev (lstrip (rev s)).

Definition strip (s : pystr) : pystr := rstrip (lstrip s).

(** [str(n)] for an integer. *)
Definition str_of_int (n : Z) : pystr :=
  lit (NilZero.string_of_int (Z.to_int n)).

(** [f"{n:02d}"]: zero-padded to width two, the sign counted in the width. *)
Definition fmt_02d (n : Z) : pystr :=
  let s := str_of_int n in
  if (length s <? 2)%nat then ch "0" :: s else s.

(** The integer a decimal numeral stands for, as [int(s)] reads it; only
    used on ASCII text. *)
Definition to_string (s : pystr) : string :=
  string_of_list_ascii (map ascii_of_N s).

Definition int_of_str (s : pystr) : option Z :=
  option_map Z.of_int (NilZero.int_of_string (to_string s)).

(** *** Exceptions

    The only operations of the program that raise on well-typed text are
    the two codec calls of [fix_encoding]. *)

Inductive exn := UnicodeEncodeError | UnicodeDecodeError.

Inductive result (A : Type) :=
| Ok (a : A)
| Raise (e : exn).
Arguments Ok {A} a.
Arguments Raise {A} e.

Definition bind {A B} (m : result A) (k : A -> result B) : result B :=
  match m with Ok a => k a | Raise e => Raise e end.

(** [try: body  except: handler] with a bare [except]. *)
Definition try_except {A} (body : result A) (handler : result A) : result A :=
  match body with Ok a => Ok a | Raise _ => handler end.

Notation "'let!' x ':=' m 'in' k" := (bind m (fun x => k))
  (at level 10, x name, m at level 100, k at level 200).

(** [s.encode('latin1')]: one byte per character, characters above U+00FF
    are not encodable. *)
Fixpoint encode_latin1 (s : pystr) : result (list byte) :=
  match s with
  | [] => Ok []
  | c :: s' =>
      match Byte.of_N c with
      | Some b => let! bs := encode_latin1 s' in Ok (b :: bs)
      | None => Raise UnicodeEncodeError
      end
  end.

Definition in_range (lo hi : N) (b : byte) : bool :=
  ((lo <=? Byte.to_N b) && (Byte.to_N b <=? hi))%N.

Definition cont (b : byte) : bool := in_range 128 191 b.

(** The six low bits of a continuation byte. *)
Definition low6 (b : byte) : N := (Byte.to_N b - 128)%N.

(** [bs.decode('utf8')], strict: shortest form only, no surrogates, nothing
    above U+10FFFF, no truncated sequence. *)
Fixpoint decode_utf8 (bs : list byte) : result pystr :=
  match bs with
  | [] => Ok []
  | b0 :: r0 =>
      let n0 := Byte.to_N b0 in
      if (n0 <? 128)%N then
        let! s := decode_utf8 r0 in Ok (n0 :: s)
      else if in_range 194 223 b0 then
        match r0 with
        | b1 :: r1 =>
            if cont b1 then
              let! s := decode_utf8 r1 in
              Ok (((n0 - 192) * 64 + low6 b1)%N :: s)
            else Raise UnicodeDecodeError
        | _ => Raise UnicodeDecodeError
        end
      else if in_range 224 239 b0 then
        match r0 with
        | b1 :: b2 :: r2 =>
            let lo := if (n0 =? 224)%N then 160%N else 128%N in
            let hi := if (n0 =? 237)%N then 159%N else 191%N in
            if in_range lo hi b1 && cont b2 then
              let! s := decode_utf8 r2 in
              Ok (((n0 - 224) * 4096 + low6 b1 * 64 + low6 b2)%N :: s)
            else Raise UnicodeDecodeError
        | _ => Raise UnicodeDecodeError
        end
      else if in_range 240 244 b0 then
        match r0 with
        | b1 :: b2 :: b3 :: r3 =>
            let lo := if (n0 =? 240)%N then 144%N else 128%N in
            let hi := if (n0 =? 244)%N then 143%N else 191%N in
            if in_range lo hi b1 && cont b2 && cont b3 then
              let! s := decode_utf8 r3 in
              Ok (((n0 - 240) * 262144 + low6 b1 * 4096
                   + low6 b2 * 64 + low6 b3)%N :: s)
            else Raise UnicodeDecodeError
        | _ => Raise UnicodeDecodeError
        end
      else Raise UnicodeDecodeError
  end.

End Py.

Import Py.

Abbreviation dict := (gmap pystr pystr).

Definition nl : pystr := [10%N].
Definition dquote : pystr := [34%N].

(** ** The host

    Everything the program obtains from the interpreter or the machine
    rather than from its own text.  The properties below hold for every
    host; [ascii_utc_host] further down is the one used to run examples. *)

Class Host := {
  (** [s.lower()], with the Unicode case mapping of the interpreter *)
  str_lower : pystr -> pystr;
  (** membership in the class [\w] of [re] on [str] patterns *)
  re_word : N -> bool;
  (** [datetime.fromtimestamp(ts_ms / 1000.0).strftime('%Y-%m-%d (%A)')]
      in the local time zone, on the timestamps [datetime] accepts *)
  strftime_date : Z -> pystr;
  (** [datetime.fromtimestamp(ts_ms / 1000.0).strftime('%H:%M')] *)
  strftime_time : Z -> pystr;
  (** [f"{delta_ms / 1000 / 3600:.1f}"], a float division and rounding *)
  fmt_gap_hours : Z -> pystr;
  (** [datetime.now().strftime('%Y-%m-%d')] *)
  today : pystr
}.

(** ** Text repair *)

(** The body of the [try] of [fix_encoding]. *)
Definition reinterpret (text : pystr) : result pystr :=
  let! bs := encode_latin1 text in decode_utf8 bs.

(** [fix_encoding], with the exceptions of the codecs and the bare
    [except] that catches them. *)
Definition fix_encoding (text : option pystr) : result pystr :=
  match text with
  | None => Ok []
  | Some t => try_except (reinterpret t) (Ok t)
  end.

(** The value [fix_encoding] returns; [fix_encoding_value] below shows
    that [fix_encoding text = Ok (fixed text)], which is what lets the
    rest of the pipeline be written without the exception monad. *)
Definition fixed (text : option pystr) : pystr :=
  match text with
  | None => []
  | Some t => match reinterpret t with Ok s => s | Raise _ => t end
  end.

Definition clean_url (url : pystr) : pystr :=
  if truthy url then hd [] (split (ch "?") url) else [].

Definition format_duration (seconds : Z) : pystr :=
  if seconds =? 0 then lit "MISSED/CANCELLED"
  else fmt_02d (seconds / 60) ++ lit ":" ++ fmt_02d (seconds mod 60).

Definition is_digit (c : N) : bool := ((48 <=? c) && (c <=? 57))%N.

Definition digit (c : N) : Z := Z.of_N c - 48.

(** The seconds a string of the shape [MM:SS] stands for: two decimal
    digits, a colon, two decimal digits. *)
Definition mmss_value (s : pystr) : option Z :=
  match s with
  | [m1; m2; c; s1; s2] =>
      if is_digit m1 && is_digit m2 && (c =? ch ":")%N
         && is_digit s1 && is_digit s2
      then Some ((digit m1 * 10 + digit m2) * 60 + digit s1 * 10 + digit s2)
      else None
  | _ => None
  end.

Definition spam_phrases : list pystr :=
  [lit "follow @"; lit "dm for"; lit "credit:"; lit "tag a";
   lit "repost"; lit "link in bio"; lit "subscribe"].

Section Caption.
Context `{Host}.

(** [re.sub(r'#\w+', '', text)]: a [#] followed by at least one word
    character is removed together with the longest run of word characters
    after it.  [skip] is true while inside such a run. *)
Fixpoint sub_hashtags (skip : bool) (text : pystr) : pystr :=
  match text with
  | [] => []
  | c :: r =>
      if skip && re_word c then sub_hashtags true r
      else if (c =? ch "#")%N
              && match r with d :: _ => re_word d | [] => false end
      then sub_hashtags true r
      else c :: sub_hashtags false r
  end.

Definition is_spam (l : pystr) : bool :=
  existsb (fun p => contains p (str_lower l)) spam_phrases.

Definition clean_caption (text : pystr) : pystr :=
  let text := sub_hashtags false text in
  let lines := split 10%N text in
  let cleaned_lines := List.filter (fun l => negb (is_spam l)) lines in
  strip (join (lit " ") cleaned_lines).

End Caption.

(** ** Data model *)

(** A raw message as exported.  [None] is an absent key; a present key has
    a value of the type the export gives it. *)
Record Message := {
  timestamp_ms : option Z;
  sender_name : option pystr;
  content : option pystr;
  is_unsent : option bool;
  is_geoblocked_for_viewer : option bool;
  sticker : option dict;
  audio_files : option (list dict);
  call_duration : option Z;
  share : option dict;
  photos : option (list dict);
  is_edited : option bool;
  reply_to_source : option dict;
  reactions : option (list dict)
}.

(** One [message_N.json] file after [json.load]. *)
Record Fragment := {
  title : option pystr;
  messages : option (list Message)
}.

(** The conversation descriptor built by [find_conversations]. *)
Record Conversation := {
  path : pystr;
  conv_title : pystr;
  folder_id : pystr;
  participants : list pystr
}.

(** ** The transcript loop of [process_single_conversation] *)

Definition GAP_THRESHOLD_MS : Z := 6 * 3600 * 1000.
Definition GROUPING_THRESHOLD_MS : Z := 5 * 60 * 1000.

Definition UNSENT : pystr := lit "[MESSAGE_UNSENT_BY_USER]".
Definition GEOBLOCKED : pystr := lit "[CONTENT_GEOBLOCKED_FOR_RECIPIENT]".
Definition STICKER : pystr := lit "[SENT_A_STICKER]".
Definition VOICE_NOTE : pystr := lit "[VOICE_NOTE_SENT]".

(** The prefix of every metadata line: a newline, four spaces, the two box
    characters U+2514 U+2500, a space and an opening bracket. *)
Definition branch : pystr := nl ++ lit "    " ++ [9492%N; 9472%N] ++ lit " [".

(** The continuation header: two spaces, U+21B3, a space. *)
Definition continuation : pystr := lit "  " ++ [8627%N] ++ lit " ".

(** The variables the loop carries from one message to the next. *)
Record State := {
  cleaned_output : list pystr;
  last_date : option pystr;
  last_sender : option pystr;
  last_timestamp : Z
}.

Definition initial : State :=
  {| cleaned_output := []; last_date := None;
     last_sender := None; last_timestamp := 0 |}.

Section Loop.
Context `{Host}.

(** The configuration: [user_name], [self_aware_input], [meta_choice]. *)
Variable user_name : pystr.
Variable self_aware_input : pystr.
Variable meta_choice : pystr.

Definition ts_ms (msg : Message) : Z := default 0 (timestamp_ms msg).

Definition date_marker (curr_date : pystr) : pystr :=
  nl ++ lit "=== DATE: " ++ curr_date ++ lit " ===".

Definition gap_marker (elapsed : Z) : pystr :=
  nl ++ lit "--- TIME GAP: " ++ fmt_gap_hours elapsed ++ lit " hours ---".

(** Lines 96 to 101: the marker lines a message appends before anything
    else is looked at. *)
Definition markers (st : State) (msg : Message) : list pystr :=
  let curr_date := strftime_date (ts_ms msg) in
  if bool_decide (Some curr_date ≠ last_date st) then
    [date_marker curr_date]
  else if GAP_THRESHOLD_MS <? ts_ms msg - last_timestamp st then
    [gap_marker (ts_ms msg - last_timestamp st)]
  else [].

Definition next_date (st : State) (msg : Message) : option pystr :=
  let curr_date := strftime_date (ts_ms msg) in
  if bool_decide (Some curr_date ≠ last_date st) then Some curr_date
  else last_date st.

Definition sender_raw (msg : Message) : pystr :=
  fixed (Some (default (lit "Unknown") (sender_name msg))).

Definition sender_display (msg : Message) : pystr :=
  if str_eqb self_aware_input (lit "y") then
    lit "["
    ++ (if str_eqb (str_lower (sender_raw msg)) (str_lower user_name)
        then lit "YOU" else lit "CONTACT")
    ++ lit "] " ++ sender_raw msg
  else sender_raw msg.

Definition raw_content (msg : Message) : pystr :=
  fixed (Some (default [] (content msg))).

(** *** Behavioural flags *)

Definition unsent (msg : Message) : bool :=
  default false (is_unsent msg)
  || contains (lit "unsent a message") (str_lower (raw_content msg)).

Definition geoblocked (msg : Message) : bool :=
  default false (is_geoblocked_for_viewer msg).

Definition has_sticker (msg : Message) : bool :=
  bool_decide (is_Some (sticker msg)).

Definition has_voice (msg : Message) : bool :=
  bool_decide (is_Some (audio_files msg)).

Definition sys_msg (msg : Message) : bool :=
  existsb (fun p => contains p (raw_content msg))
    [lit "sent an attachment."; lit "Liked a message"; lit "Reacted "].

(** Lines 115 to 120: the [if]/[elif] chain. *)
Definition classified (msg : Message) : pystr :=
  if unsent msg then UNSENT
  else if geoblocked msg then GEOBLOCKED
  else if has_sticker msg then STICKER
  else if has_voice msg then VOICE_NOTE
  else if sys_msg msg then []
  else raw_content msg.

(** Lines 122 and 123. *)
Definition with_call (msg : Message) (content : pystr) : pystr :=
  match call_duration msg with
  | Some d => lit "[CALL_LOG: " ++ format_duration d ++ lit "]"
  | None => content
  end.

(** *** Metadata strategies *)

Definition share_data (msg : Message) : dict := default ∅ (share msg).

Definition share_link (msg : Message) : pystr :=
  clean_url (get (share_data msg) (lit "link") []).

Definition share_caption (msg : Message) : pystr :=
  fixed (Some (get (share_data msg) (lit "share_text") [])).

Definition gif_slug (link : pystr) : pystr :=
  if contains (lit "/") link then
    hd [] (split (ch " ")
             (replace (ch "-") (ch " ") (List.last (split (ch "/") link) [])))
  else lit "visual".

Definition s_label (link : pystr) : pystr :=
  if contains (lit "/stories/") link then lit "STORY_CONTEXT"
  else if contains (lit "giphy.com") link then
    lit "GIF_SENT (Theme: " ++ gif_slug link ++ lit ")"
  else lit "SHARED_LINK".

Definition link_line (link : pystr) : pystr :=
  branch ++ s_label link ++ lit "]: " ++ link.

(** Lines 141 and 142. *)
Definition short_cap (caption : pystr) : pystr :=
  let c := clean_caption caption in
  if (130 <? length c)%nat then take 127 c ++ lit "..." else c.

(** Lines 126 to 148: the content and the metadata block after the share
    payload has been looked at. *)
Definition with_share (msg : Message) (content : pystr) : pystr * pystr :=
  if dict_truthy (share_data msg) then
    let link := share_link msg in
    let caption := share_caption msg in
    if str_eqb meta_choice (lit "1") then
      (content,
       link_line link
       ++ (if truthy caption then branch ++ lit "CAPTION]: " ++ caption
           else []))
    else if str_eqb meta_choice (lit "2") then
      (content,
       link_line link
       ++ (if truthy (short_cap caption)
           then branch ++ lit "CAPTION_DIGEST]: " ++ short_cap caption
           else []))
    else if str_eqb meta_choice (lit "3") then
      (content, link_line link)
    else
      (strip (lit "[" ++ s_label link ++ lit "] " ++ content), [])
  else (content, []).

Definition with_photos (msg : Message) (content : pystr) : pystr :=
  if truthy (default [] (photos msg))
  then strip (lit "[MEDIA: Photo] " ++ content) else content.

Definition with_edited (msg : Message) (content : pystr) : pystr :=
  if default false (is_edited msg) then content ++ lit " (EDITED)"
  else content.

(** The value of [content] when line 169 is reached. *)
Definition final_content (msg : Message) : pystr :=
  with_edited msg
    (with_photos msg (fst (with_share msg (with_call msg (classified msg))))).

(** The value of [share_block] when line 169 is reached. *)
Definition share_block (msg : Message) : pystr :=
  snd (with_share msg (with_call msg (classified msg))).

Definition reply_context (msg : Message) : pystr :=
  match reply_to_source msg with
  | Some reply_data =>
      if dict_truthy reply_data then
        let r_sender :=
          fixed (Some (get reply_data (lit "sender_name") (lit "Unknown"))) in
        let r_content :=
          fixed (Some (get reply_data (lit "content") (lit "[Media]"))) in
        lit "(Reply to " ++ r_sender ++ lit ": " ++ dquote ++ r_content
        ++ dquote ++ lit ") " ++ [8627%N] ++ lit " "
      else []
  | None => []
  end.

Definition reaction_item (r : dict) : pystr :=
  fixed (r !! lit "reaction") ++ lit " by " ++ fixed (r !! lit "actor").

Definition reaction_str (msg : Message) : pystr :=
  let rs := default [] (reactions msg) in
  if truthy rs then
    lit " [Reactions: " ++ join (lit ", ") (map reaction_item rs) ++ lit "]"
  else [].

(** *** Conversational grouping *)

Definition grouped (st : State) (msg : Message) : bool :=
  bool_decide (Some (sender_raw msg) = last_sender st)
  && (ts_ms msg - last_timestamp st <? GROUPING_THRESHOLD_MS).

Definition full_header (msg : Message) : pystr :=
  nl ++ lit "[" ++ strftime_time (ts_ms msg) ++ lit "] "
  ++ sender_display msg ++ lit ": ".

Definition header (st : State) (msg : Message) : pystr :=
  if grouped st msg then continuation else full_header msg.

(** What follows the header on a message line. *)
Definition body (msg : Message) : pystr :=
  reply_context msg ++ final_content msg ++ reaction_str msg
  ++ share_block msg.

Definition message_line (st : State) (msg : Message) : pystr :=
  header st msg ++ body msg.

(** The test of line 169. *)
Definition emitted (msg : Message) : bool :=
  truthy (final_content msg) || truthy (share_block msg).

(** One iteration of the [for] loop. *)
Definition step (st : State) (msg : Message) : State :=
  let out := cleaned_output st ++ markers st msg in
  if emitted msg then
    {| cleaned_output := out ++ [message_line st msg];
       last_date := next_date st msg;
       last_sender := Some (sender_raw msg);
       last_timestamp := ts_ms msg |}
  else
    {| cleaned_output := out;
       last_date := next_date st msg;
       last_sender := last_sender st;
       last_timestamp := last_timestamp st |}.

Definition run (st : State) (all_messages : list Message) : State :=
  fold_left step all_messages st.

End Loop.

(** ** Merging the fragments *)

(** [list.sort] and [sorted] are stable: elements that compare equal keep
    their order.  Insertion from the right computes that list ([le x y] is
    [not (y < x)] on the keys). *)
Section Sort.
Context {A : Type} (le : A -> A -> bool).

Fixpoint insert_sorted (x : A) (l : list A) : list A :=
  match l with
  | [] => [x]
  | y :: l' => if le x y then x :: l else y :: insert_sorted x l'
  end.

Fixpoint stable_sort (l : list A) : list A :=
  match l with
  | [] => []
  | x :: l' => insert_sorted x (stable_sort l')
  end.

End Sort.

(** Comparison of two elements by an integer key, as [sort(key=...)] does,
    and the elements of a list that have a given key, in their order. *)
Definition leb_on {A : Type} (key : A -> Z) (a b : A) : bool :=
  key a <=? key b.

Definition ordered_on {A : Type} (key : A -> Z) (a b : A) : Prop :=
  key a <= key b.

Definition with_key {A : Type} (key : A -> Z) (k : Z) (l : list A) : list A :=
  List.filter (fun a => key a =? k) l.

(** The order of [str]: lexicographic on code points. *)
Fixpoint str_leb (a b : pystr) : bool :=
  match a, b with
  | [], _ => true
  | _ :: _, [] => false
  | x :: a', y :: b' => (x <? y)%N || (x =? y)%N && str_leb a' b'
  end.

(** The sort key [lambda x: x.get('timestamp_ms', 0)]. *)
Definition sort_key (msg : Message) : Z := default 0 (timestamp_ms msg).

Definition key_le : Message -> Message -> bool := leb_on sort_key.

(** Line 75: the names of the folder kept and put in order. *)
Definition json_files (listing : list (pystr * Fragment))
  : list (pystr * Fragment) :=
  stable_sort (fun a b => str_leb (fst a) (fst b))
    (List.filter
       (fun f => endswith (lit ".json") (fst f)
                 && startswith (lit "message_") (fst f))
       listing).

(** Lines 80 and 81: what one file adds to [all_messages]. *)
Definition fragment_messages (target_thread_title : pystr) (data : Fragment)
  : list Message :=
  if str_eqb (fixed (title data)) target_thread_title
  then default [] (messages data) else [].

(** Lines 76 to 81 on the files already chosen. *)
Definition collect (target_thread_title : pystr) (files : list Fragment)
  : list Message :=
  flat_map (fragment_messages target_thread_title) files.

(** Lines 75 to 83.  [listing] is the folder: each name that
    [os.listdir] returns with the parsed content of that file. *)
Definition all_messages (conv : Conversation)
  (listing : list (pystr * Fragment)) : list Message :=
  stable_sort key_le (collect (conv_title conv) (map snd (json_files listing))).

(** ** The transcript *)

(** The dictionary [meta_labels] that [main] passes. *)
Definition main_meta_labels : dict :=
  list_to_map
    [(lit "1", lit "Full"); (lit "2", lit "Optimized");
     (lit "3", lit "Minimal"); (lit "4", lit "None")].

Section Transcript.
Context `{Host}.

Definition strategy_label (meta_labels : dict) (meta_choice : pystr) : pystr :=
  get meta_labels meta_choice (lit "Optimized").

(** The lines written before the transcript, each with its newline. *)
Definition header_lines (conv : Conversation) (user_name meta_choice : pystr)
  (meta_labels : dict) : list pystr :=
  [lit "SYSTEM: INSTASCRIBE DM DATASET" ++ nl;
   lit "GENERATED_ON: " ++ today ++ nl;
   lit "FOLDER_SOURCE: " ++ folder_id conv ++ nl;
   lit "OWNER_IDENTITY: "
     ++ (if truthy user_name then user_name else lit "Not Specified") ++ nl;
   lit "PARTICIPANTS: " ++ join (lit ", ") (participants conv) ++ nl;
   lit "METADATA_STRATEGY: " ++ strategy_label meta_labels meta_choice ++ nl;
   replicate 60 (ch "=") ++ nl].

(** The file [process_single_conversation] writes: its name (joined to the
    output folder by the caller's file system) and its text. *)
Record Output := {
  output_filename : pystr;
  text : pystr
}.

Definition process_single_conversation (conv : Conversation)
  (user_name self_aware_input meta_choice : pystr) (meta_labels : dict)
  (listing : list (pystr * Fragment)) : Output :=
  let st :=
    run user_name self_aware_input meta_choice initial
      (all_messages conv listing) in
  {| output_filename := lit "instascribe_" ++ folder_id conv ++ lit ".txt";
     text := concat (header_lines conv user_name meta_choice meta_labels)
             ++ join nl (cleaned_output st) |}.

End Transcript.

(** ** A host to run examples on

    ASCII case mapping and word class, the UTC time zone, and the gap
    rounded on its exact value.  On ASCII text and away from rounding ties
    this is what CPython computes on a machine set to UTC. *)

Module AsciiUtc.

Definition lower_char (c : N) : N :=
  if ((65 <=? c) && (c <=? 90))%N then (c + 32)%N else c.

Definition word_char (c : N) : bool :=
  ((48 <=? c) && (c <=? 57) || (65 <=? c) && (c <=? 90)
   || (97 <=? c) && (c <=? 122) || (c =? 95))%N.

(** Year, month and day of the day numbered [z] from 1970-01-01. *)
Definition civil_from_days (z : Z) : Z * Z * Z :=
  let z := z + 719468 in
  let era := z / 146097 in
  let doe := z - era * 146097 in
  let yoe := (doe - doe / 1460 + doe / 36524 - doe / 146096) / 365 in
  let doy := doe - (365 * yoe + yoe / 4 - yoe / 100) in
  let mp := (5 * doy + 2) / 153 in
  let d := doy - (153 * mp + 2) / 5 + 1 in
  let m := if mp <? 10 then mp + 3 else mp - 9 in
  (yoe + era * 400 + (if m <=? 2 then 1 else 0), m, d).

Definition weekday_names : list pystr :=
  [lit "Monday"; lit "Tuesday"; lit "Wednesday"; lit "Thursday";
   lit "Friday"; lit "Saturday"; lit "Sunday"].

Definition pad (width : nat) (s : pystr) : pystr :=
  replicate (width - length s) (ch "0") ++ s.

Definition date_of (ts : Z) : pystr :=
  let days := ts / 1000 / 86400 in
  let '(y, m, d) := civil_from_days days in
  pad 4 (str_of_int y) ++ lit "-" ++ fmt_02d m ++ lit "-" ++ fmt_02d d
  ++ lit " ("
  ++ nth (Z.to_nat ((days + 3) mod 7)) weekday_names []
  ++ lit ")".

Definition time_of (ts : Z) : pystr :=
  let secs := (ts / 1000) mod 86400 in
  fmt_02d (secs / 3600) ++ lit ":" ++ fmt_02d (secs mod 3600 / 60).

Definition gap_hours (elapsed : Z) : pystr :=
  let q := elapsed / 360000 in
  let r := elapsed mod 360000 in
  let tenths :=
    if (180000 <? r) || (r =? 180000) && Z.odd q then q + 1 else q in
  str_of_int (tenths / 10) ++ lit "." ++ str_of_int (tenths mod 10).

End AsciiUtc.

Definition ascii_utc_host : Host :=
  {| str_lower := map AsciiUtc.lower_char;
     re_word := AsciiUtc.word_char;
     strftime_date := AsciiUtc.date_of;
     strftime_time := AsciiUtc.time_of;
     fmt_gap_hours := AsciiUtc.gap_hours;
     today := lit "2026-01-01" |}.

(** ** Discovery: [find_conversations]

    [os.walk] is given by what it yields: for each directory its path, the
    names of its files and, for its [message_1.json], what [open] and
    [json.load] give ([None] when either raises).  A participant is the
    value of its [name] key, [None] when the key is absent, in which case
    [p['name']] raises and the bare [except] skips the directory. *)

Record ConversationFile := {
  file_title : option pystr;
  file_participants : option (list (option pystr))
}.

Record WalkEntry := {
  root : pystr;
  files : list pystr;
  message_1 : option ConversationFile
}.

(** [os.path.basename] with the separator [/]. *)
Definition basename (p : pystr) : pystr := List.last (split (ch "/") p) [].

(** The list comprehension of line 59; [None] when a [name] is missing. *)
Fixpoint participant_names (ps : list (option pystr)) : option (list pystr) :=
  match ps with
  | [] => Some []
  | None :: _ => None
  | Some n :: ps' =>
      match participant_names ps' with
      | Some ns => Some (fixed (Some n) :: ns)
      | None => None
      end
  end.

(** Lines 54 to 67: the descriptor one directory adds, if any. *)
Definition describe (e : WalkEntry) : option Conversation :=
  if bool_decide (lit "message_1.json" ∈ files e) then
    match message_1 e with
    | Some data =>
        match participant_names (default [] (file_participants data)) with
        | Some ps =>
            Some {| path := root e;
                    conv_title :=
                      fixed (Some (default (lit "Unknown") (file_title data)));
                    folder_id := basename (root e);
                    participants := ps |}
        | None => None
        end
    | None => None
    end
  else None.

Section Discovery.
Context `{Host}.

(** The sort key [lambda x: x['title'].lower()] and its comparison. *)
Definition title_key (c : Conversation) : pystr := str_lower (conv_title c).

Definition title_le (a b : Conversation) : bool :=
  str_leb (title_key a) (title_key b).

Definition find_conversations (walk : list WalkEntry) : list Conversation :=
  stable_sort title_le (omap describe walk).

End Discovery.

(** ** Selection in [main]

    [int] is the parser of the interpreter, [None] when it raises. *)

(** [l[k]] with the negative indexes of Python; [None] is [IndexError]. *)
Definition py_index {A : Type} (l : list A) (k : Z) : option A :=
  if 0 <=? k then l !! Z.to_nat k
  else if - Z.of_nat (length l) <=? k
       then l !! Z.to_nat (Z.of_nat (length l) + k)
       else None.

Section Selection.
Variable py_int : pystr -> option Z.

(** Line 210; [None] when the comprehension raises. *)
Definition selection (conversations : list Conversation) (idx : pystr)
  : option (list Conversation) :=
  mapM (fun x => match py_int (strip x) with
                 | Some i => py_index conversations (i - 1)
                 | None => None
                 end)
       (split (ch ",") idx).

(** Lines 203 to 212: the conversations to process, [None] when [main]
    prints that the selection is invalid and returns. *)
Definition to_process (conversations : list Conversation)
  (choice idx : pystr) : option (list Conversation) :=
  if str_eqb choice (lit "s") then selection conversations idx
  else Some (if str_eqb choice (lit "a") then conversations else []).

End Selection.

(** ** The corruption [fix_encoding] is written for

    The UTF-8 bytes of a text, each read as one Latin-1 character:
    [t.encode('utf8').decode('latin1')]. *)

Definition utf8_bytes (c : N) : list N :=
  (if c <? 128 then [c]
   else if c <? 2048 then [192 + c / 64; 128 + c mod 64]
   else if c <? 65536 then
     [224 + c / 4096; 128 + (c / 64) mod 64; 128 + c mod 64]
   else
     [240 + c / 262144; 128 + (c / 4096) mod 64;
      128 + (c / 64) mod 64; 128 + c mod 64])%N.

Definition mojibake (t : pystr) : pystr := flat_map utf8_bytes t.

(** The code points UTF-8 encodes: up to U+10FFFF, surrogates excluded. *)
Definition scalar (c : N) : bool :=
  ((c <? 55296) || (57343 <? c) && (c <? 1114112))%N.

(** A text without hashtag: no [#] in it is followed by a word character. *)
Definition hashtag_free `{Host} (s : pystr) : Prop :=
  forall a c b, s = a ++ ch "#" :: c :: b -> re_word c = false.

(** The first character of a text, if any, is no word character. *)
Definition starts_plain `{Host} (s : pystr) : Prop :=
  match s with [] => True | d :: _ => re_word d = false end.

(** The comparison [sorted] makes on the names of line 75. *)
Definition name_le (a b : pystr * Fragment) : bool := str_leb (fst a) (fst b).

(** A walk over four directories: two conversations, a directory without
    message file, and one whose participant has no name. *)
Definition conv_file (t : string) (ps : list (option pystr))
  : option ConversationFile :=
  Some {| file_title := Some (lit t); file_participants := Some ps |}.

Definition walk_example : list WalkEntry :=
  [{| root := lit "inbox/zoe_2"; files := [lit "message_1.json"];
      message_1 := conv_file "Zoe" [Some (lit "Zoe"); Some (lit "Me")] |};
   {| root := lit "inbox/photos"; files := [lit "a.jpg"];
      message_1 := None |};
   {| root := lit "inbox/ann_1";
      files := [lit "message_2.json"; lit "message_1.json"];
      message_1 := conv_file "ann" [Some (lit "Ann"); Some (lit "Me")] |};
   {| root := lit "inbox/bad_3"; files := [lit "message_1.json"];
      message_1 := conv_file "Bad" [Some (lit "Bad"); None] |}].

Definition conv_ann : Conversation :=
  {| path := lit "inbox/ann_1"; conv_title := lit "ann";
     folder_id := lit "ann_1"; participants := [lit "Ann"; lit "Me"] |}.

Definition conv_zoe : Conversation :=
  {| path := lit "inbox/zoe_2"; conv_title := lit "Zoe";
     folder_id := lit "zoe_2"; participants := [lit "Zoe"; lit "Me"] |}.

(** A shared link with a caption that ends in a hashtag. *)
Definition captioned_share : Message :=
  {| timestamp_ms := Some 1000; sender_name := Some (lit "Alice");
     content := Some (lit "look");
     is_unsent := None; is_geoblocked_for_viewer := None;
     sticker := None; audio_files := None; call_duration := None;
     share :=
       Some (<[ lit "link" := lit "https://example.org/p/1?igsh=x" ]>
               ({[ lit "share_text" := lit "so cute #dog" ]} : dict));
     photos := None; is_edited := None;
     reply_to_source := None; reactions := None |}.

(** A message with no key at all, to build examples from. *)
Definition empty_message : Message :=
  {| timestamp_ms := None; sender_name := None; content := None;
     is_unsent := None; is_geoblocked_for_viewer := None; sticker := None;
     audio_files := None; call_duration := None; share := None;
     photos := None; is_edited := None; reply_to_source := None;
     reactions := None |}.

Definition text_message (sender : string) (ts : Z) (body : string) : Message :=
  {| timestamp_ms := Some ts; sender_name := Some (lit sender);
     content := Some (lit body);
     is_unsent := None; is_geoblocked_for_viewer := None; sticker := None;
     audio_files := None; call_duration := None; share := None;
     photos := None; is_edited := None; reply_to_source := None;
     reactions := None |}.

(** The message without its reply reference and its reactions. *)
Definition without_annotations (msg : Message) : Message :=
  {| timestamp_ms := timestamp_ms msg; sender_name := sender_name msg;
     content := content msg; is_unsent := is_unsent msg;
     is_geoblocked_for_viewer := is_geoblocked_for_viewer msg;
     sticker := sticker msg; audio_files := audio_files msg;
     call_duration := call_duration msg; share := share msg;
     photos := photos msg; is_edited := is_edited msg;
     reply_to_source := None; reactions := None |}.

(** A call of two minutes and five seconds. *)
Definition call_example : Message :=
  {| timestamp_ms := Some 1000; sender_name := Some (lit "Alice");
     content := Some (lit "hello");
     is_unsent := None; is_geoblocked_for_viewer := None; sticker := None;
     audio_files := None; call_duration := Some 125; share := None;
     photos := None; is_edited := None; reply_to_source := None;
     reactions := None |}.

(** Two fragments of the conversation titled Ann: the first holds a
    message without timestamp between two dated ones, the second overlaps
    it in time. *)
Definition stamped (ts : option Z) (body : string) : Message :=
  {| timestamp_ms := ts; sender_name := Some (lit "Ann");
     content := Some (lit body);
     is_unsent := None; is_geoblocked_for_viewer := None; sticker := None;
     audio_files := None; call_duration := None; share := None;
     photos := None; is_edited := None; reply_to_source := None;
     reactions := None |}.

Definition fragment_one : Fragment :=
  {| title := Some (lit "Ann");
     messages := Some [stamped (Some 5000) "a"; stamped None "b";
                       stamped (Some 2000) "c"] |}.

Definition fragment_two : Fragment :=
  {| title := Some (lit "Ann");
     messages := Some [stamped (Some 2000) "d"; stamped (Some 1000) "e"] |}.

(** A message flagged as unsent that also carries a call duration. *)
Definition unsent_call : Message :=
  {| timestamp_ms := Some 1000; sender_name := Some (lit "Alice");
     content := None;
     is_unsent := Some true; is_geoblocked_for_viewer := None;
     sticker := None; audio_files := None; call_duration := Some 0;
     share := None; photos := None; is_edited := None;
     reply_to_source := None; reactions := None |}.

(** An unsend notice in the text, on a geo-blocked message with a sticker
    and a voice payload. *)
Definition unsent_notice : Message :=
  {| timestamp_ms := Some 1000; sender_name := Some (lit "Alice");
     content := Some (lit "Alice Unsent A Message");
     is_unsent := None; is_geoblocked_for_viewer := Some true;
     sticker := Some ({[ lit "uri" := lit "s.png" ]} : dict);
     audio_files := Some []; call_duration := None;
     share := None; photos := None; is_edited := None;
     reply_to_source := None; reactions := None |}.

(** A system notice, which the classifier empties, with a reaction and a
    reply reference attached. *)
Definition liked_notice (ts : Z) : Message :=
  {| timestamp_ms := Some ts; sender_name := Some (lit "Alice");
     content := Some (lit "Liked a message");
     is_unsent := None; is_geoblocked_for_viewer := None;
     sticker := None; audio_files := None; call_duration := None;
     share := None; photos := None; is_edited := None;
     reply_to_source :=
       Some ({[ lit "sender_name" := lit "Bob" ]} : dict);
     reactions :=
       Some [({[ lit "reaction" := lit ":)" ]} : dict)] |}.

(** A message sharing an animation, with a tracking parameter. *)
Definition gif_share : Message :=
  {| timestamp_ms := Some 1000; sender_name := Some (lit "Alice");
     content := Some (lit "look");
     is_unsent := None; is_geoblocked_for_viewer := None;
     sticker := None; audio_files := None; call_duration := None;
     share :=
       Some (<[ lit "link" := lit "https://giphy.com/gifs/cool-dance-xyz?utm=1" ]>
               ({[ lit "share_text" := [] ]} : dict));
     photos := None; is_edited := None;
     reply_to_source := None; reactions := None |}.

(** * Properties *)

(** ** Text repair *)

Lemma fix_encoding_value (text : option pystr) :
  fix_encoding text = Ok (fixed text).
Proof.
  destruct text as [t|]; [|reflexivity].
  unfold fix_encoding, fixed, try_except.
  destruct (reinterpret t); reflexivity.
Qed.

Lemma encode_latin1_raises (t : pystr) (e : exn) :
  encode_latin1 t = Raise e -> e = UnicodeEncodeError.
Proof.
  revert e. induction t as [|c t IH]; simpl; intros e He; [discriminate|].
  destruct (Byte.of_N c); [|congruence].
  unfold bind in He. destruct (encode_latin1 t) as [bs|e0]; [discriminate|].
  injection He as <-. apply IH. reflexivity.
Qed.

Lemma reinterpret_raises (t : pystr) (e : exn) :
  reinterpret t = Raise e ->
  encode_latin1 t = Raise UnicodeEncodeError
  \/ exists bs, encode_latin1 t = Ok bs /\ decode_utf8 bs = Raise e.
Proof.
  unfold reinterpret, bind. intros Hr.
  destruct (encode_latin1 t) as [bs|e'] eqn:He.
  - right. exists bs. split; [reflexivity | exact Hr].
  - left. f_equal. eapply encode_latin1_raises. exact He.
Qed.

(** C7: [fix_encoding] returns on every input and never raises; an absent
    input gives the empty string, and whenever the reinterpretation raises,
    at the encoding or at the decoding, the result is the original text. *)
Theorem fix_encoding_never_raises (text : option pystr) :
  (exists s, fix_encoding text = Ok s)
  /\ (text = None -> fix_encoding text = Ok [])
  /\ (forall t e, text = Some t -> reinterpret t = Raise e ->
        fix_encoding text = Ok t).
Proof.
  split; [|split].
  - exists (fixed text). apply fix_encoding_value.
  - intros ->. reflexivity.
  - intros t e -> Hr. unfold fix_encoding. rewrite Hr. reflexivity.
Qed.

(** A text with a character above U+00FF cannot be encoded and a stray
    lead byte cannot be decoded: both come back as they were. *)
Lemma fix_encoding_never_raises_witness :
  fix_encoding (Some [233%N; 8364%N]) = Ok [233%N; 8364%N]
  /\ fix_encoding (Some [195%N; 40%N]) = Ok [195%N; 40%N]
  /\ fix_encoding None = Ok [].
Proof.
  split; [|split].
  - apply (proj2 (proj2 (fix_encoding_never_raises (Some [233%N; 8364%N])))
             _ UnicodeEncodeError); reflexivity.
  - apply (proj2 (proj2 (fix_encoding_never_raises (Some [195%N; 40%N])))
             _ UnicodeDecodeError); reflexivity.
  - apply (proj1 (proj2 (fix_encoding_never_raises None))). reflexivity.
Defined.

(** The corruption the function is for: U+00C3 U+00A9, the two bytes of
    an e with acute accent read one byte per character, is repaired; plain
    ASCII is left as it is. *)
Example fix_encoding_repairs :
  fix_encoding (Some [195%N; 169%N]) = Ok [233%N]
  /\ fix_encoding (Some (lit "plain")) = Ok (lit "plain").
Proof. split; reflexivity. Qed.

(** ** Call durations *)

Lemma lit_inj (s1 s2 : string) : lit s1 = lit s2 -> s1 = s2.
Proof.
  unfold lit. intros Heq.
  rewrite <- (string_of_list_ascii_of_string s1),
          <- (string_of_list_ascii_of_string s2).
  f_equal. revert Heq.
  generalize (list_ascii_of_string s1) (list_ascii_of_string s2).
  induction l as [|a l IH]; intros [|b l']; simpl; try discriminate; auto.
  intros Heq. injection Heq as Hab Hl. f_equal; [|auto].
  rewrite <- (ascii_N_embedding a), <- (ascii_N_embedding b). now f_equal.
Qed.

(** The numeral [str] produces parses back to the integer it was produced
    from. *)
Lemma str_of_int_parses (n : Z) (s : string) :
  str_of_int n = lit s -> NilZero.int_of_string s = Some (Z.to_int n).
Proof.
  unfold str_of_int. intros Hs. apply lit_inj in Hs. subst s.
  apply NilZero.isi; intros Hnil;
    pose proof (DecimalZ.of_to n) as Hn; rewrite Hnil in Hn;
    simpl in Hn; subst n; discriminate Hnil.
Qed.

Lemma str_of_int_reads_back (n : Z) (s : string) (d : Decimal.signed_int) :
  str_of_int n = lit s -> NilZero.int_of_string s = Some d -> n = Z.of_int d.
Proof.
  intros Hs Hd. rewrite (str_of_int_parses n s Hs) in Hd.
  injection Hd as <-. symmetry. apply DecimalZ.of_to.
Qed.

Lemma str_of_int_nonempty (n : Z) : str_of_int n <> [].
Proof.
  intros Hs. pose proof (str_of_int_parses n "" Hs) as Hp. discriminate Hp.
Qed.

Lemma fmt_02d_length (n : Z) : (2 <= length (fmt_02d n))%nat.
Proof.
  unfold fmt_02d. destruct (length (str_of_int n) <? 2)%nat eqn:Hl.
  - pose proof (str_of_int_nonempty n).
    destruct (str_of_int n); [congruence | simpl; lia].
  - apply Nat.ltb_ge in Hl. exact Hl.
Qed.

Lemma to_string_lit (s : string) : to_string (lit s) = s.
Proof.
  unfold to_string, lit. rewrite map_map.
  rewrite <- (string_of_list_ascii_of_string s) at 2. f_equal.
  induction (list_ascii_of_string s) as [|a l IH]; [reflexivity|].
  simpl. rewrite ascii_N_embedding, IH. reflexivity.
Qed.

Lemma int_of_str_of_int (n : Z) : int_of_str (str_of_int n) = Some n.
Proof.
  unfold int_of_str. unfold str_of_int at 1. rewrite to_string_lit.
  rewrite (str_of_int_parses n _ eq_refl). simpl.
  rewrite DecimalZ.of_to. reflexivity.
Qed.

(** A numeral of one character is a digit, and a zero in front of it does
    not change what it stands for. *)
Lemma int_of_padded_digit (a : ascii) (d : Decimal.signed_int) :
  NilZero.int_of_string (String a EmptyString) = Some d ->
  option_map Z.of_int (NilZero.int_of_string (String "0" (String a EmptyString)))
  = Some (Z.of_int d).
Proof.
  destruct a as [[] [] [] [] [] [] [] []]; simpl;
    try discriminate; intros [= <-]; reflexivity.
Qed.

(** The two-digit format reads back to the number formatted. *)
Lemma fmt_02d_reads_back (n : Z) : int_of_str (fmt_02d n) = Some n.
Proof.
  unfold fmt_02d. destruct (length (str_of_int n) <? 2)%nat eqn:Hl;
    [|apply int_of_str_of_int].
  apply Nat.ltb_lt in Hl.
  pose proof (str_of_int_parses n _ eq_refl) as Hp.
  pose proof (int_of_str_of_int n) as Hn.
  unfold str_of_int in Hl. unfold int_of_str. unfold str_of_int at 1.
  change (ch "0" :: lit ?s) with (lit (String "0" s)).
  rewrite to_string_lit.
  destruct (NilZero.string_of_int (Z.to_int n)) as [|a [|b s]] eqn:Hs.
  - discriminate Hp.
  - rewrite (int_of_padded_digit a _ Hp). rewrite DecimalZ.of_to. reflexivity.
  - simpl in Hl. lia.
Qed.

Lemma fmt_02d_double_zero (n : Z) : fmt_02d n = lit "00" -> n = 0.
Proof.
  unfold fmt_02d. destruct (length (str_of_int n) <? 2)%nat; intros Heq.
  - injection Heq as Heq.
    apply (str_of_int_reads_back n "0" (Decimal.Pos (Decimal.D0 Decimal.Nil)))
      in Heq; [exact Heq | reflexivity].
  - apply (str_of_int_reads_back n "00"
             (Decimal.Pos (Decimal.D0 (Decimal.D0 Decimal.Nil))))
      in Heq; [exact Heq | reflexivity].
Qed.

Lemma below_cases (bound n : Z) :
  0 <= n < bound -> In n (map Z.of_nat (seq 0 (Z.to_nat bound))).
Proof.
  intros Hn. apply in_map_iff. exists (Z.to_nat n). split; [lia|].
  apply in_seq. lia.
Qed.

Lemma fmt_02d_seconds (n : Z) : 0 <= n < 60 -> length (fmt_02d n) = 2%nat.
Proof.
  intros Hn.
  assert (Hall : Forall (fun k => length (fmt_02d k) = 2%nat)
                   (map Z.of_nat (seq 0 (Z.to_nat 60)))).
  { apply (bool_decide_unpack _). vm_compute. exact I. }
  rewrite Forall_forall in Hall. apply Hall.
  apply list_elem_of_In, below_cases. lia.
Qed.

Lemma format_duration_never_double_zero (d : Z) :
  format_duration d <> lit "00:00".
Proof.
  unfold format_duration. destruct (d =? 0) eqn:Hd; [discriminate|].
  apply Z.eqb_neq in Hd. intros Heq.
  pose proof (Z.mod_pos_bound d 60 ltac:(lia)) as Hs.
  pose proof (fmt_02d_seconds _ Hs) as Hlen.
  change (lit "00:00") with (lit "00" ++ lit ":" ++ lit "00") in Heq.
  apply app_inj_2 in Heq; [|simpl; rewrite Hlen; reflexivity].
  destruct Heq as [Hm Hsec]. injection Hsec as Hsec.
  apply fmt_02d_double_zero in Hm, Hsec.
  pose proof (Z.div_mod d 60 ltac:(lia)). lia.
Qed.

Lemma format_duration_reads_back (d : Z) :
  0 < d < 6000 -> mmss_value (format_duration d) = Some d.
Proof.
  intros Hd.
  assert (Hall : Forall (fun k => k = 0 \/ mmss_value (format_duration k) = Some k)
                   (map Z.of_nat (seq 0 (Z.to_nat 6000)))).
  { apply (bool_decide_unpack _). vm_compute. exact I. }
  rewrite Forall_forall in Hall.
  destruct (Hall d) as [Hz|Hv]; [|lia|exact Hv].
  apply list_elem_of_In, below_cases. lia.
Qed.

(** C5: a message with a call duration, zero included, has its content
    replaced by the call-log marker; a duration of zero is rendered as
    MISSED/CANCELLED, no duration is rendered as 00:00, and a duration
    other than zero is rendered as its minutes and its seconds, each padded
    with zeros to two digits and separated by a colon: the two fields read
    back to the quotient and the remainder by sixty, the seconds take two
    characters, and below one hundred minutes the whole reads back, as
    MM:SS, to the duration. *)
Theorem call_duration_overrides_content
  (msg : Message) (d : Z) (content : pystr) :
  call_duration msg = Some d ->
  with_call msg content = lit "[CALL_LOG: " ++ format_duration d ++ lit "]"
  /\ (d = 0 -> format_duration d = lit "MISSED/CANCELLED")
  /\ format_duration d <> lit "00:00"
  /\ (d <> 0 ->
      format_duration d = fmt_02d (d / 60) ++ lit ":" ++ fmt_02d (d mod 60)
      /\ int_of_str (fmt_02d (d / 60)) = Some (d / 60)
      /\ int_of_str (fmt_02d (d mod 60)) = Some (d mod 60)
      /\ 0 <= d mod 60 < 60
      /\ length (fmt_02d (d mod 60)) = 2%nat
      /\ (2 <= length (fmt_02d (d / 60)))%nat)
  /\ (0 < d < 6000 -> mmss_value (format_duration d) = Some d).
Proof.
  intros Hcall. split; [|split; [|split; [|split]]].
  - unfold with_call. rewrite Hcall. reflexivity.
  - intros ->. reflexivity.
  - apply format_duration_never_double_zero.
  - intros Hd. split; [|split; [|split; [|split; [|split]]]].
    + unfold format_duration. apply Z.eqb_neq in Hd. rewrite Hd. reflexivity.
    + apply fmt_02d_reads_back.
    + apply fmt_02d_reads_back.
    + apply Z.mod_pos_bound. lia.
    + apply fmt_02d_seconds, Z.mod_pos_bound. lia.
    + apply fmt_02d_length.
  - apply format_duration_reads_back.
Qed.

Lemma call_duration_overrides_content_witness :
  with_call call_example (lit "hello") = lit "[CALL_LOG: 02:05]".
Proof.
  exact (proj1 (call_duration_overrides_content
                  call_example 125 (lit "hello") eq_refl)).
Defined.

(** ** The classifier and the metadata policy *)

Section Content.
Context `{Host}.

Lemma str_eqb_refl (a : pystr) : str_eqb a a = true.
Proof. unfold str_eqb. apply bool_decide_eq_true. reflexivity. Qed.

Lemma str_eqb_neq (a b : pystr) : a <> b -> str_eqb a b = false.
Proof. unfold str_eqb. intros Hne. apply bool_decide_eq_false. exact Hne. Qed.

Lemma with_share_no_payload (meta_choice : pystr) (msg : Message)
  (content : pystr) :
  dict_truthy (share_data msg) = false ->
  with_share meta_choice msg content = (content, []).
Proof. unfold with_share. intros ->. reflexivity. Qed.

(** Under the densities 1, 2 and 3 the share payload leaves the content
    alone. *)
Lemma with_share_keeps_content (meta_choice : pystr) (msg : Message)
  (content : pystr) :
  meta_choice ∈ [lit "1"; lit "2"; lit "3"] ->
  fst (with_share meta_choice msg content) = content.
Proof.
  intros Hin. unfold with_share.
  destruct (dict_truthy (share_data msg)); [|reflexivity].
  repeat (apply elem_of_cons in Hin as [->|Hin]; [reflexivity|]).
  inversion Hin.
Qed.

(** C1, amended: when rule 1 applies the classifier yields the UNSENT
    marker whatever the geo-block flag, the sticker, the voice payload and
    the raw text are; the later stages (call log, None-density label, photo
    prefix, edited suffix) then start from that marker, and when none of
    them applies the rendered content is exactly the marker. *)
Theorem unsent_rule_takes_priority (meta_choice : pystr) (msg : Message) :
  unsent msg = true ->
  classified msg = UNSENT
  /\ final_content meta_choice msg
     = with_edited msg
         (with_photos msg
            (fst (with_share meta_choice msg (with_call msg UNSENT))))
  /\ (call_duration msg = None ->
      dict_truthy (share_data msg) = false
      \/ meta_choice ∈ [lit "1"; lit "2"; lit "3"] ->
      truthy (default [] (photos msg)) = false ->
      default false (is_edited msg) = false ->
      final_content meta_choice msg = UNSENT).
Proof.
  intros Hu.
  assert (Hc : classified msg = UNSENT) by (unfold classified; now rewrite Hu).
  split; [exact Hc|]. split.
  - unfold final_content. rewrite Hc. reflexivity.
  - intros Hcall Hshare Hphotos Hedited.
    unfold final_content, with_edited, with_photos, with_call.
    rewrite Hedited, Hphotos, Hcall, Hc.
    destruct Hshare as [Hs|Hs].
    + rewrite with_share_no_payload by exact Hs. reflexivity.
    + apply with_share_keeps_content. exact Hs.
Qed.

Lemma short_cap_length (caption : pystr) :
  (length (short_cap caption) <= 130)%nat.
Proof.
  unfold short_cap. destruct (130 <? length (clean_caption caption))%nat eqn:Hl.
  - apply Nat.ltb_lt in Hl. rewrite length_app, length_take.
    change (length (lit "...")) with 3%nat. lia.
  - apply Nat.ltb_ge in Hl. exact Hl.
Qed.

(** C6: the digest of the Optimized density, that is the cleaned caption
    cut to 127 characters and an ellipsis when it is longer than 130, is
    never longer than 130 characters, the ellipsis included, and it is this
    digest that the metadata block shows. *)
Theorem optimized_digest_at_most_130 (caption : pystr) :
  (length (short_cap caption) <= 130)%nat
  /\ ((130 < length (clean_caption caption))%nat ->
      short_cap caption = take 127 (clean_caption caption) ++ lit "..."
      /\ length (short_cap caption) = 130%nat)
  /\ ((length (clean_caption caption) <= 130)%nat ->
      short_cap caption = clean_caption caption)
  /\ (forall msg content,
        dict_truthy (share_data msg) = true ->
        share_caption msg = caption ->
        snd (with_share (lit "2") msg content)
        = link_line (share_link msg)
          ++ (if truthy (short_cap caption)
              then branch ++ lit "CAPTION_DIGEST]: " ++ short_cap caption
              else [])).
Proof.
  split; [apply short_cap_length|]. split; [|split].
  - intros Hl. unfold short_cap.
    rewrite (proj2 (Nat.ltb_lt _ _) Hl). split; [reflexivity|].
    rewrite length_app, length_take.
    change (length (lit "...")) with 3%nat. lia.
  - intros Hl. unfold short_cap.
    rewrite (proj2 (Nat.ltb_ge _ _) Hl). reflexivity.
  - intros msg content Hs <-. unfold with_share. rewrite Hs.
    reflexivity.
Qed.

Lemma main_meta_labels_unknown (meta_choice : pystr) :
  meta_choice ∉ [lit "1"; lit "2"; lit "3"; lit "4"] ->
  main_meta_labels !! meta_choice = None.
Proof.
  intros Hnot. unfold main_meta_labels. simpl.
  repeat (rewrite lookup_insert_ne;
          [|intros Heq; apply Hnot; rewrite <- Heq; set_solver]).
  apply lookup_empty.
Qed.

(** C10: a density choice other than 1, 2, 3 and 4 takes the last branch
    of the policy, so a message with a share payload is rendered as under
    the None density (the bracketed label in front of the content, no
    metadata block), while the header names the strategy Optimized. *)
Theorem unrecognised_choice_is_none_density
  (conv : Conversation) (user_name meta_choice : pystr)
  (msg : Message) (content : pystr) :
  meta_choice ∉ [lit "1"; lit "2"; lit "3"; lit "4"] ->
  dict_truthy (share_data msg) = true ->
  with_share meta_choice msg content
  = (strip (lit "[" ++ s_label (share_link msg) ++ lit "] " ++ content), [])
  /\ with_share meta_choice msg content = with_share (lit "4") msg content
  /\ share_block meta_choice msg = []
  /\ strategy_label main_meta_labels meta_choice = lit "Optimized"
  /\ lit "METADATA_STRATEGY: Optimized" ++ nl
     ∈ header_lines conv user_name meta_choice main_meta_labels.
Proof.
  intros Hnot Hs.
  assert (Hw : forall c, with_share meta_choice msg c
    = (strip (lit "[" ++ s_label (share_link msg) ++ lit "] " ++ c), [])).
  { intros c. unfold with_share. rewrite Hs.
    rewrite !str_eqb_neq; [reflexivity|..];
      intros ->; apply Hnot; set_solver. }
  assert (Hl : strategy_label main_meta_labels meta_choice = lit "Optimized").
  { unfold strategy_label, get.
    rewrite main_meta_labels_unknown by exact Hnot. reflexivity. }
  repeat split.
  - apply Hw.
  - rewrite Hw. unfold with_share. rewrite Hs. reflexivity.
  - unfold share_block. rewrite Hw. reflexivity.
  - exact Hl.
  - unfold header_lines. rewrite Hl. set_solver.
Qed.

End Content.

(** ** The merger *)

Section SortFacts.
Context {A : Type} (key : A -> Z).

Local Abbreviation le := (leb_on key).
Local Abbreviation ordered := (ordered_on key).
Local Abbreviation with_key := (with_key key).

Lemma insert_sorted_perm (x : A) (l : list A) :
  Permutation (insert_sorted le x l) (x :: l).
Proof.
  induction l as [|y l IH]; simpl; [reflexivity|].
  destruct (le x y); [reflexivity|].
  rewrite IH. apply perm_swap.
Qed.

Lemma stable_sort_perm (l : list A) : Permutation (stable_sort le l) l.
Proof.
  induction l as [|x l IH]; simpl; [reflexivity|].
  rewrite insert_sorted_perm. now apply perm_skip.
Qed.

Lemma insert_sorted_ordered (x : A) (l : list A) :
  StronglySorted ordered l -> StronglySorted ordered (insert_sorted le x l).
Proof.
  induction 1 as [|y l Hs IH Hy]; simpl.
  - repeat constructor.
  - unfold leb_on at 1. destruct (Z.leb_spec (key x) (key y)) as [Hxy|Hyx].
    + constructor; [constructor; assumption|].
      constructor; [exact Hxy|].
      eapply Forall_impl; [exact Hy|]. unfold ordered_on. intros z Hz. lia.
    + constructor; [exact IH|].
      rewrite (insert_sorted_perm x l).
      constructor; [unfold ordered_on; lia | exact Hy].
Qed.

Lemma stable_sort_ordered (l : list A) : StronglySorted ordered (stable_sort le l).
Proof.
  induction l as [|x l IH]; simpl; [constructor|].
  now apply insert_sorted_ordered.
Qed.

(** Insertion keeps the new element in front of the elements with its key,
    and leaves the order among the others as it was. *)
Lemma insert_sorted_stable (k : Z) (x : A) (l : list A) :
  with_key k (insert_sorted le x l) = with_key k (x :: l).
Proof.
  induction l as [|y l IH]; [reflexivity|].
  simpl insert_sorted. unfold leb_on at 1.
  destruct (Z.leb_spec (key x) (key y)) as [Hxy|Hyx]; [reflexivity|].
  unfold with_key in *. simpl in *. rewrite IH.
  destruct (Z.eqb_spec (key x) k), (Z.eqb_spec (key y) k);
    try reflexivity; lia.
Qed.

Lemma stable_sort_stable (k : Z) (l : list A) :
  with_key k (stable_sort le l) = with_key k l.
Proof.
  induction l as [|x l IH]; [reflexivity|].
  simpl stable_sort. rewrite insert_sorted_stable.
  unfold with_key in *. simpl. rewrite IH. reflexivity.
Qed.

(** An ordered list is determined by its elements of each key, taken in
    order: two stable sorts of one list give the same list. *)
Lemma stable_sorted_unique (l1 l2 : list A) :
  StronglySorted ordered l1 -> StronglySorted ordered l2 ->
  (forall k, with_key k l1 = with_key k l2) -> l1 = l2.
Proof.
  intros Hs1. revert l2.
  induction Hs1 as [|x l1 Hs1 IH Hx]; intros l2 Hs2 Hk.
  - destruct l2 as [|y l2]; [reflexivity|].
    specialize (Hk (key y)). unfold with_key in Hk. simpl in Hk.
    rewrite Z.eqb_refl in Hk. discriminate.
  - destruct Hs2 as [|y l2 Hs2 Hy].
    + specialize (Hk (key x)). unfold with_key in Hk. simpl in Hk.
      rewrite Z.eqb_refl in Hk. discriminate.
    + assert (Hxy : key x = key y).
      { assert (Hin1 : In y (x :: l1)).
        { pose proof (Hk (key y)) as Hk'. unfold with_key in Hk'.
          assert (Hin : In y (List.filter (fun a => key a =? key y) (y :: l2))).
          { apply filter_In. split; [now left | apply Z.eqb_refl]. }
          rewrite <- Hk' in Hin. apply filter_In in Hin. tauto. }
        assert (Hin2 : In x (y :: l2)).
        { pose proof (Hk (key x)) as Hk'. unfold with_key in Hk'.
          assert (Hin : In x (List.filter (fun a => key a =? key x) (x :: l1))).
          { apply filter_In. split; [now left | apply Z.eqb_refl]. }
          rewrite Hk' in Hin. apply filter_In in Hin. tauto. }
        rewrite Forall_forall in Hx, Hy. unfold ordered_on in Hx, Hy.
        destruct Hin1 as [->|Hin1]; [reflexivity|].
        destruct Hin2 as [->|Hin2]; [reflexivity|].
        apply list_elem_of_In in Hin1, Hin2.
        specialize (Hx _ Hin1). specialize (Hy _ Hin2). lia. }
      assert (x = y) as <-.
      { specialize (Hk (key x)). unfold with_key in Hk. simpl in Hk.
        rewrite <- Hxy, Z.eqb_refl in Hk. congruence. }
      f_equal. apply IH; [exact Hs2|].
      intros k. specialize (Hk k). unfold with_key in *. simpl in Hk.
      destruct (key x =? k); congruence.
Qed.

End SortFacts.

Lemma all_messages_ordered (conv : Conversation)
  (listing : list (pystr * Fragment)) :
  StronglySorted (ordered_on sort_key) (all_messages conv listing).
Proof. apply stable_sort_ordered. Qed.

(** C8: the messages of two fragments with the title of the conversation
    are concatenated and sorted by timestamp: the result holds the same
    messages, its timestamps never decrease, messages with equal
    timestamps keep the order they had, and a message without a timestamp
    counts as timestamp zero, so that everything in front of it has a
    timestamp of zero or less. *)
Theorem merged_fragments_sorted (conv : Conversation) (f1 f2 : Fragment) :
  fixed (title f1) = conv_title conv ->
  fixed (title f2) = conv_title conv ->
  all_messages conv
    [(lit "message_1.json", f1); (lit "message_2.json", f2)]
  = stable_sort key_le
      (default [] (messages f1) ++ default [] (messages f2))
  /\ StronglySorted (ordered_on sort_key)
       (stable_sort key_le
          (default [] (messages f1) ++ default [] (messages f2)))
  /\ Permutation
       (stable_sort key_le
          (default [] (messages f1) ++ default [] (messages f2)))
       (default [] (messages f1) ++ default [] (messages f2))
  /\ (forall k,
        with_key sort_key k
          (stable_sort key_le
             (default [] (messages f1) ++ default [] (messages f2)))
        = with_key sort_key k
            (default [] (messages f1) ++ default [] (messages f2)))
  /\ (forall before m after,
        stable_sort key_le
          (default [] (messages f1) ++ default [] (messages f2))
        = before ++ m :: after ->
        timestamp_ms m = None ->
        sort_key m = 0
        /\ Forall (fun x => sort_key x <= 0) before
        /\ Forall (fun x => 0 <= sort_key x) after).
Proof.
  intros Ht1 Ht2. split; [|split; [|split; [|split]]].
  - unfold all_messages. f_equal.
    change (json_files [(lit "message_1.json", f1); (lit "message_2.json", f2)])
      with [(lit "message_1.json", f1); (lit "message_2.json", f2)].
    unfold collect. simpl. unfold fragment_messages.
    rewrite Ht1, Ht2, str_eqb_refl, app_nil_r. reflexivity.
  - apply stable_sort_ordered.
  - apply stable_sort_perm.
  - intros k. apply stable_sort_stable.
  - intros before m after Heq Hts.
    assert (Hk : sort_key m = 0) by (unfold sort_key; now rewrite Hts).
    split; [exact Hk|].
    pose proof (stable_sort_ordered sort_key
      (default [] (messages f1) ++ default [] (messages f2))) as Hs.
    change (leb_on sort_key) with key_le in Hs. rewrite Heq in Hs.
    apply StronglySorted_app in Hs as (Hcross & _ & Hs).
    apply StronglySorted_cons in Hs as [Hafter _].
    split; apply Forall_forall.
    + intros x Hx. specialize (Hcross x m Hx ltac:(left)).
      unfold ordered_on in Hcross. lia.
    + intros x Hx. rewrite Forall_forall in Hafter.
      specialize (Hafter x Hx). unfold ordered_on in Hafter. lia.
Qed.

(** Five messages in two fragments: the one without timestamp comes first,
    the two of timestamp 2000 stay in the order of the fragments. *)
Lemma merged_fragments_sorted_witness :
  all_messages
    {| path := lit "inbox/ann_1"; conv_title := lit "Ann";
       folder_id := lit "ann_1"; participants := [lit "Ann"; lit "Me"] |}
    [(lit "message_1.json", fragment_one); (lit "message_2.json", fragment_two)]
  = [stamped None "b"; stamped (Some 1000) "e"; stamped (Some 2000) "c";
     stamped (Some 2000) "d"; stamped (Some 5000) "a"].
Proof.
  exact (proj1 (merged_fragments_sorted
                  {| path := lit "inbox/ann_1"; conv_title := lit "Ann";
                     folder_id := lit "ann_1";
                     participants := [lit "Ann"; lit "Me"] |}
                  fragment_one fragment_two eq_refl eq_refl)).
Defined.

(** ** The transcript loop *)

Section LoopFacts.
Context `{Host}.
Variables user_name self_aware_input meta_choice : pystr.

Local Abbreviation step' := (step user_name self_aware_input meta_choice).
Local Abbreviation run' := (run user_name self_aware_input meta_choice).
Local Abbreviation header' := (header user_name self_aware_input).
Local Abbreviation full_header' := (full_header user_name self_aware_input).
Local Abbreviation emitted' := (emitted meta_choice).
Local Abbreviation body' := (body meta_choice).

Lemma emitted_false (msg : Message) :
  final_content meta_choice msg = [] -> share_block meta_choice msg = [] ->
  emitted' msg = false.
Proof. unfold emitted. intros -> ->. reflexivity. Qed.

Lemma step_output (st : State) (msg : Message) :
  cleaned_output (step' st msg)
  = cleaned_output st ++ markers st msg
    ++ (if emitted' msg then [header' st msg ++ body' msg] else []).
Proof.
  unfold step. destruct (emitted' msg); simpl.
  - rewrite <- app_assoc. reflexivity.
  - rewrite app_nil_r. reflexivity.
Qed.

Lemma step_emitted (st : State) (msg : Message) :
  emitted' msg = true ->
  last_sender (step' st msg) = Some (sender_raw msg)
  /\ last_timestamp (step' st msg) = ts_ms msg.
Proof. unfold step. intros ->. split; reflexivity. Qed.

Lemma step_suppressed (st : State) (msg : Message) :
  emitted' msg = false ->
  last_sender (step' st msg) = last_sender st
  /\ last_timestamp (step' st msg) = last_timestamp st.
Proof. unfold step. intros ->. split; reflexivity. Qed.

Lemma run_suppressed (st : State) (mid : list Message) :
  Forall (fun m => emitted' m = false) mid ->
  last_sender (run' st mid) = last_sender st
  /\ last_timestamp (run' st mid) = last_timestamp st.
Proof.
  intros Hmid. revert st.
  induction Hmid as [|m mid Hm _ IH]; intros st; [split; reflexivity|].
  change (run' st (m :: mid)) with (run' (step' st m) mid).
  destruct (IH (step' st m)) as [-> ->]. now apply step_suppressed.
Qed.

Lemma run_app (st : State) (l1 l2 : list Message) :
  run' st (l1 ++ l2) = run' (run' st l1) l2.
Proof. apply fold_left_app. Qed.

Lemma continuation_not_full_header (msg : Message) :
  continuation <> full_header' msg.
Proof. discriminate. Qed.

Lemma date_marker_not_gap_marker (d : pystr) (e : Z) :
  date_marker d <> gap_marker e.
Proof. discriminate. Qed.

Lemma markers_cases (st : State) (msg : Message) :
  (Some (strftime_date (ts_ms msg)) <> last_date st
   /\ markers st msg = [date_marker (strftime_date (ts_ms msg))])
  \/ (Some (strftime_date (ts_ms msg)) = last_date st
      /\ GAP_THRESHOLD_MS < ts_ms msg - last_timestamp st
      /\ markers st msg = [gap_marker (ts_ms msg - last_timestamp st)])
  \/ (Some (strftime_date (ts_ms msg)) = last_date st
      /\ ts_ms msg - last_timestamp st <= GAP_THRESHOLD_MS
      /\ markers st msg = []).
Proof.
  unfold markers. case_bool_decide as Hd.
  - left. split; [exact Hd | reflexivity].
  - right. assert (Some (strftime_date (ts_ms msg)) = last_date st) as Heq.
    { destruct (decide (Some (strftime_date (ts_ms msg)) = last_date st));
        [assumption | contradiction]. }
    destruct (Z.ltb_spec GAP_THRESHOLD_MS (ts_ms msg - last_timestamp st)).
    + left. repeat split; assumption.
    + right. repeat split; assumption.
Qed.

Lemma next_date_unchanged (st : State) (msg : Message) :
  markers st msg = [] -> next_date st msg = last_date st.
Proof.
  intros Hm. unfold next_date.
  destruct (markers_cases st msg) as [[_ Hd]|[(_ & _ & Hg)|(Heq & _ & _)]];
    [congruence | congruence |].
  rewrite bool_decide_eq_false_2; [reflexivity | intros Hn; exact (Hn Heq)].
Qed.

Lemma markers_at_most_one (st : State) (msg : Message) :
  (length (markers st msg) <= 1)%nat.
Proof.
  destruct (markers_cases st msg) as [[_ ->]|[(_ & _ & ->)|(_ & _ & ->)]];
    simpl; lia.
Qed.

Lemma step_remembers_date (st : State) (msg : Message) :
  last_date (step' st msg) = Some (strftime_date (ts_ms msg)).
Proof.
  assert (Hd : next_date st msg = Some (strftime_date (ts_ms msg))).
  { unfold next_date. case_bool_decide as Hd; [reflexivity|].
    destruct (decide (Some (strftime_date (ts_ms msg)) = last_date st));
      [congruence | contradiction]. }
  unfold step. destruct (emitted' msg); exact Hd.
Qed.




(** C3: of two consecutive emitted messages with the same repaired sender
    name (suppressed messages may lie between them), the second is a
    continuation line exactly when it comes less than five minutes after
    the first: 299,999 ms apart they group, 300,000 ms apart they do not. *)
Theorem grouping_threshold_exclusive
  (st : State) (m1 : Message) (mid : list Message) (m2 : Message) :
  emitted' m1 = true ->
  Forall (fun m => emitted' m = false) mid ->
  emitted' m2 = true ->
  sender_raw m1 = sender_raw m2 ->
  cleaned_output (step' (run' st (m1 :: mid)) m2)
  = cleaned_output (run' st (m1 :: mid))
    ++ markers (run' st (m1 :: mid)) m2
    ++ [header' (run' st (m1 :: mid)) m2 ++ body' m2]
  /\ (header' (run' st (m1 :: mid)) m2 = continuation
      <-> ts_ms m2 - ts_ms m1 < 300000)
  /\ (header' (run' st (m1 :: mid)) m2 = full_header' m2
      <-> 300000 <= ts_ms m2 - ts_ms m1)
  /\ (ts_ms m2 - ts_ms m1 = 299999 ->
      header' (run' st (m1 :: mid)) m2 = continuation)
  /\ (ts_ms m2 - ts_ms m1 = 300000 ->
      header' (run' st (m1 :: mid)) m2 = full_header' m2).
Proof.
  intros He1 Hmid He2 Hsender.
  assert (Hst : last_sender (run' st (m1 :: mid)) = Some (sender_raw m2)
                /\ last_timestamp (run' st (m1 :: mid)) = ts_ms m1).
  { change (run' st (m1 :: mid)) with (run' (step' st m1) mid).
    destruct (run_suppressed (step' st m1) mid Hmid) as [-> ->].
    rewrite <- Hsender. now apply step_emitted. }
  destruct Hst as [Hls Hlt].
  assert (Hhead : header' (run' st (m1 :: mid)) m2
                  = if ts_ms m2 - ts_ms m1 <? 300000
                    then continuation else full_header' m2).
  { unfold header, grouped. rewrite Hls, Hlt.
    rewrite bool_decide_eq_true_2 by reflexivity. reflexivity. }
  pose proof (continuation_not_full_header m2) as Hne.
  split; [|split; [|split; [|split]]].
  - rewrite step_output, He2. reflexivity.
  - rewrite Hhead.
    destruct (Z.ltb_spec (ts_ms m2 - ts_ms m1) 300000); split;
      try reflexivity; try lia; congruence.
  - rewrite Hhead.
    destruct (Z.ltb_spec (ts_ms m2 - ts_ms m1) 300000); split;
      try reflexivity; try lia; congruence.
  - intros Hd. rewrite Hhead, Hd. reflexivity.
  - intros Hd. rewrite Hhead, Hd. reflexivity.
Qed.

(** C2, amended: a message whose final content and whose metadata block are
    both empty appends no message line.  What it appends is the marker it
    triggers, if any, at most one line: the date boundary when its date is
    not the previous date, else the time gap when more than six hours have
    passed since the previous timestamp of the state, else nothing.  It
    leaves the previous sender
    and the previous timestamp as they were, so the header chosen for the
    following message is the one that would be chosen without it; the
    previous date becomes the date of this message; and when it triggers
    no marker it leaves the whole state as it was. *)
Theorem suppressed_message_frame (st : State) (msg next : Message) :
  final_content meta_choice msg = [] ->
  share_block meta_choice msg = [] ->
  cleaned_output (step' st msg) = cleaned_output st ++ markers st msg
  /\ (length (markers st msg) <= 1)%nat
  /\ last_sender (step' st msg) = last_sender st
  /\ last_timestamp (step' st msg) = last_timestamp st
  /\ header' (step' st msg) next = header' st next
  /\ last_date (step' st msg) = Some (strftime_date (ts_ms msg))
  /\ (Some (strftime_date (ts_ms msg)) <> last_date st ->
      markers st msg = [date_marker (strftime_date (ts_ms msg))])
  /\ (Some (strftime_date (ts_ms msg)) = last_date st ->
      GAP_THRESHOLD_MS < ts_ms msg - last_timestamp st ->
      markers st msg = [gap_marker (ts_ms msg - last_timestamp st)])
  /\ (Some (strftime_date (ts_ms msg)) = last_date st ->
      ts_ms msg - last_timestamp st <= GAP_THRESHOLD_MS ->
      markers st msg = [])
  /\ (markers st msg = [] -> step' st msg = st).
Proof.
  intros Hc Hb. pose proof (emitted_false msg Hc Hb) as He.
  destruct (step_suppressed st msg He) as [Hs Ht].
  pose proof (markers_cases st msg) as Hcases.
  split; [|split; [|split; [|split; [|split; [|split;
    [|split; [|split; [|split]]]]]]]].
  - rewrite step_output, He, app_nil_r. reflexivity.
  - apply markers_at_most_one.
  - exact Hs.
  - exact Ht.
  - unfold header, grouped. rewrite Hs, Ht. reflexivity.
  - apply step_remembers_date.
  - intros Hd. destruct Hcases as [[_ Hm]|[[Heq _]|[Heq _]]]; congruence.
  - intros Hd Hg. destruct Hcases as [[Hn _]|[[_ [_ Hm]]|[_ [Hle _]]]];
      [congruence | exact Hm | lia].
  - intros Hd Hg. destruct Hcases as [[Hn _]|[[_ [Hlt _]]|[_ [_ Hm]]]];
      [congruence | lia | exact Hm].
  - intros Hm. unfold step. rewrite He, Hm, app_nil_r.
    rewrite (next_date_unchanged st msg Hm). destruct st; reflexivity.
Qed.

(** C9: a message whose final content and metadata block are empty is
    suppressed whatever its reactions and its reply reference are: the step
    appends the markers only, and the state it leaves, hence the whole
    transcript, is the one obtained from the same message without reactions
    and without reply reference. *)
Theorem suppressed_annotations_never_emitted
  (st : State) (before after : list Message) (msg : Message) :
  final_content meta_choice msg = [] ->
  share_block meta_choice msg = [] ->
  cleaned_output (step' st msg) = cleaned_output st ++ markers st msg
  /\ markers st msg = markers st (without_annotations msg)
  /\ (forall st0, step' st0 msg = step' st0 (without_annotations msg))
  /\ run' st (before ++ msg :: after)
     = run' st (before ++ without_annotations msg :: after).
Proof.
  intros Hc Hb. pose proof (emitted_false msg Hc Hb) as He.
  assert (Hstep : forall st0,
             step' st0 msg = step' st0 (without_annotations msg)).
  { intros st0. unfold step.
    change (emitted' (without_annotations msg)) with (emitted' msg).
    rewrite He. reflexivity. }
  split; [|split; [|split]].
  - rewrite step_output, He, app_nil_r. reflexivity.
  - reflexivity.
  - exact Hstep.
  - rewrite !run_app.
    change (run' (run' st before) (msg :: after))
      with (run' (step' (run' st before) msg) after).
    rewrite Hstep. reflexivity.
Qed.

End LoopFacts.

(** ** The properties at work

    Closed instances on [ascii_utc_host]: the examples of the
    specification, and the inputs on which two of its sentences fail. *)

Section Examples.
#[local] Existing Instance ascii_utc_host.

Local Abbreviation cfg_step := (step [] (lit "n") (lit "2")).
Local Abbreviation cfg_run := (run [] (lit "n") (lit "2")).

(** Two messages of one sender 59 seconds apart: one date marker, one
    full header, one continuation. *)
Example hi_there_transcript :
  cleaned_output
    (cfg_run initial
       [text_message "Alice" 1000 "Hi"; text_message "Alice" 60000 "there"])
  = [nl ++ lit "=== DATE: 1970-01-01 (Thursday) ===";
     nl ++ lit "[00:00] Alice: Hi";
     continuation ++ lit "there"].
Proof. vm_compute. reflexivity. Qed.

(** The animation under the Minimal density: the label carries the slug
    and the link has lost its query. *)
Example gif_minimal_block :
  share_block (lit "3") gif_share
  = branch ++ lit "GIF_SENT (Theme: cool)]: https://giphy.com/gifs/cool-dance-xyz".
Proof. vm_compute. reflexivity. Qed.

(** C1 fails as stated: rule 1 applies to [unsent_call], and its rendered
    content is the call-log marker. *)
Lemma unsent_overridden_by_call_log :
  unsent unsent_call = true
  /\ final_content (lit "2") unsent_call = lit "[CALL_LOG: MISSED/CANCELLED]"
  /\ final_content (lit "2") unsent_call <> UNSENT.
Proof. split; [|split]; [reflexivity | reflexivity | discriminate]. Qed.

Lemma unsent_rule_takes_priority_witness :
  unsent unsent_notice = true
  /\ geoblocked unsent_notice = true
  /\ has_sticker unsent_notice = true
  /\ final_content (lit "2") unsent_notice = UNSENT.
Proof.
  split; [|split; [|split]]; [reflexivity | reflexivity | reflexivity |].
  apply (proj2 (proj2 (unsent_rule_takes_priority (H := ascii_utc_host) (lit "2") unsent_notice
                         ltac:(vm_compute; reflexivity))));
    [reflexivity | left; reflexivity | reflexivity | reflexivity].
Defined.

(** C2 fails as stated: the message with no key at all has empty content,
    no share payload and no reactions, and as the first message of a
    conversation it appends one line, the date marker. *)
Lemma suppressed_first_message_appends_marker :
  final_content (lit "2") empty_message = []
  /\ share_block (lit "2") empty_message = []
  /\ reactions empty_message = None
  /\ cleaned_output (cfg_step initial empty_message)
     = [nl ++ lit "=== DATE: 1970-01-01 (Thursday) ==="]
  /\ length (cleaned_output (cfg_step initial empty_message))
     <> length (cleaned_output initial).
Proof.
  split; [|split; [|split; [|split]]]; try reflexivity.
  vm_compute. discriminate.
Qed.

(** After Hi, a system notice on the same day changes nothing at all. *)
Lemma suppressed_message_frame_witness :
  cfg_step (cfg_step initial (text_message "Alice" 1000 "Hi")) (liked_notice 2000)
  = cfg_step initial (text_message "Alice" 1000 "Hi").
Proof.
  apply (proj2 (proj2 (proj2 (proj2 (proj2 (proj2 (proj2 (proj2 (proj2
           (suppressed_message_frame (H := ascii_utc_host) [] (lit "n") (lit "2")
              (cfg_step initial (text_message "Alice" 1000 "Hi"))
              (liked_notice 2000) empty_message ltac:(vm_compute; reflexivity) ltac:(vm_compute; reflexivity)))))))))));
    reflexivity.
Defined.

Lemma grouping_threshold_exclusive_witness :
  header [] (lit "n")
    (cfg_run initial [text_message "Alice" 1000 "Hi"; liked_notice 2000])
    (text_message "Alice" 300999 "there")
  = continuation
  /\ header [] (lit "n")
       (cfg_run initial [text_message "Alice" 1000 "Hi"; liked_notice 2000])
       (text_message "Alice" 301000 "there")
     = nl ++ lit "[00:05] Alice: ".
Proof.
  split.
  - apply (proj1 (proj2 (proj2 (proj2
             (grouping_threshold_exclusive (H := ascii_utc_host) [] (lit "n") (lit "2") initial
                (text_message "Alice" 1000 "Hi") [liked_notice 2000]
                (text_message "Alice" 300999 "there")
                ltac:(vm_compute; reflexivity) ltac:(repeat constructor)
                ltac:(vm_compute; reflexivity) ltac:(vm_compute; reflexivity)))))).
    reflexivity.
  - apply (proj2 (proj2 (proj2 (proj2
             (grouping_threshold_exclusive (H := ascii_utc_host) [] (lit "n") (lit "2") initial
                (text_message "Alice" 1000 "Hi") [liked_notice 2000]
                (text_message "Alice" 301000 "there")
                ltac:(vm_compute; reflexivity) ltac:(repeat constructor)
                ltac:(vm_compute; reflexivity) ltac:(vm_compute; reflexivity)))))).
    reflexivity.
Defined.



Lemma suppressed_annotations_never_emitted_witness :
  reaction_str (liked_notice 2000) = lit " [Reactions: :) by ]"
  /\ cleaned_output
       (cfg_run initial
          ([text_message "Alice" 1000 "Hi"] ++ liked_notice 2000
           :: [text_message "Bob" 3000 "yo"]))
     = [nl ++ lit "=== DATE: 1970-01-01 (Thursday) ===";
        nl ++ lit "[00:00] Alice: Hi";
        nl ++ lit "[00:00] Bob: yo"].
Proof.
  split; [reflexivity|].
  rewrite (proj2 (proj2 (proj2
             (suppressed_annotations_never_emitted (H := ascii_utc_host) [] (lit "n") (lit "2")
                initial [text_message "Alice" 1000 "Hi"]
                [text_message "Bob" 3000 "yo"] (liked_notice 2000)
                ltac:(vm_compute; reflexivity) ltac:(vm_compute; reflexivity))))).
  vm_compute. reflexivity.
Defined.

Lemma unrecognised_choice_is_none_density_witness :
  with_share (lit "5") gif_share (lit "look")
  = (lit "[GIF_SENT (Theme: cool)] look", [])
  /\ strategy_label main_meta_labels (lit "5") = lit "Optimized".
Proof.
  assert (Hnot : lit "5" ∉ [lit "1"; lit "2"; lit "3"; lit "4"]).
  { apply (bool_decide_unpack _). vm_compute. exact I. }
  split.
  - apply (proj1 (unrecognised_choice_is_none_density (H := ascii_utc_host)
                    {| path := []; conv_title := lit "Ann";
                       folder_id := lit "ann_1"; participants := [] |}
                    [] (lit "5") gif_share (lit "look") Hnot ltac:(vm_compute; reflexivity))).
  - apply (proj1 (proj2 (proj2 (proj2
             (unrecognised_choice_is_none_density (H := ascii_utc_host)
                {| path := []; conv_title := lit "Ann";
                   folder_id := lit "ann_1"; participants := [] |}
                [] (lit "5") gif_share (lit "look") Hnot ltac:(vm_compute; reflexivity)))))).
Defined.

End Examples.

(** * Further properties of the code *)

(** ** Text repair on clean and on corrupted text *)

Lemma encode_latin1_bytes (t : pystr) :
  Forall (fun c => (c < 256)%N) t ->
  exists bs, encode_latin1 t = Ok bs /\ map Byte.to_N bs = t.
Proof.
  induction 1 as [|c t Hc _ [bs [He Hm]]].
  - exists []. split; reflexivity.
  - destruct (Byte.of_N c) as [b|] eqn:Hb.
    + exists (b :: bs). simpl. rewrite Hb, He. simpl.
      rewrite (Byte.to_of_N _ Hb), Hm. split; reflexivity.
    + apply Byte.of_N_None_iff in Hb. lia.
Qed.

Lemma encode_latin1_wide (t : pystr) :
  Exists (fun c => (255 < c)%N) t ->
  encode_latin1 t = Raise UnicodeEncodeError.
Proof.
  induction 1 as [c t Hc|c t _ IH]; simpl.
  - apply Byte.of_N_None_iff in Hc. rewrite Hc. reflexivity.
  - destruct (Byte.of_N c); [|reflexivity]. rewrite IH. reflexivity.
Qed.

Lemma decode_utf8_ascii (bs : list byte) :
  Forall (fun b => (Byte.to_N b < 128)%N) bs ->
  decode_utf8 bs = Ok (map Byte.to_N bs).
Proof.
  induction 1 as [|b bs Hb _ IH]; [reflexivity|].
  cbn [decode_utf8 map]. rewrite (proj2 (N.ltb_lt _ _) Hb), IH. reflexivity.
Qed.

(** X1: text made of ASCII characters only is returned as it is. *)
Theorem fix_encoding_ascii_unchanged (t : pystr) :
  Forall (fun c => (c < 128)%N) t -> fix_encoding (Some t) = Ok t.
Proof.
  intros Hascii.
  destruct (encode_latin1_bytes t) as [bs [He Hm]].
  { eapply Forall_impl; [exact Hascii|]. simpl. intros c Hc. lia. }
  unfold fix_encoding, reinterpret. rewrite He. simpl.
  rewrite decode_utf8_ascii, Hm; [reflexivity|].
  rewrite <- Hm in Hascii. apply Forall_map in Hascii. exact Hascii.
Qed.

Lemma fix_encoding_ascii_unchanged_witness :
  fix_encoding (Some (lit "Hello, world")) = Ok (lit "Hello, world").
Proof.
  apply (fix_encoding_ascii_unchanged (lit "Hello, world")).
  apply (bool_decide_unpack _). vm_compute. exact I.
Defined.

(** X2: text with a character above U+00FF, which Latin-1 cannot encode,
    is returned as it is, whatever the other characters are. *)
Theorem fix_encoding_wide_unchanged (t : pystr) :
  Exists (fun c => (255 < c)%N) t -> fix_encoding (Some t) = Ok t.
Proof.
  intros Hwide. unfold fix_encoding, reinterpret.
  rewrite (encode_latin1_wide t Hwide). reflexivity.
Qed.

(** U+00C3 U+00A9 alone would be repaired; next to U+20AC it is kept. *)
Lemma fix_encoding_wide_unchanged_witness :
  fix_encoding (Some [195%N; 169%N; 8364%N]) = Ok [195%N; 169%N; 8364%N].
Proof.
  apply (fix_encoding_wide_unchanged [195%N; 169%N; 8364%N]).
  apply (bool_decide_unpack _). vm_compute. exact I.
Defined.

(** *** The decoder, one character at a time *)

Ltac bool_to_prop :=
  repeat match goal with
    | H : andb _ _ = true |- _ => apply andb_true_iff in H as [? ?]
    | H : andb _ _ = false |- _ => apply andb_false_iff in H as [H|H]
    | H : orb _ _ = true |- _ => apply orb_true_iff in H as [H|H]
    | H : orb _ _ = false |- _ => apply orb_false_iff in H as [? ?]
    | H : N.ltb _ _ = true |- _ => apply N.ltb_lt in H
    | H : N.ltb _ _ = false |- _ => apply N.ltb_ge in H
    | H : N.leb _ _ = true |- _ => apply N.leb_le in H
    | H : N.leb _ _ = false |- _ => apply N.leb_gt in H
    | H : N.eqb _ _ = true |- _ => apply N.eqb_eq in H
    | H : N.eqb _ _ = false |- _ => apply N.eqb_neq in H
    end.

Ltac n_arith := bool_to_prop; zify; Z.to_euclidean_division_equations; lia.
Ltac absurd_arith := exfalso; n_arith.

Lemma decode_utf8_one (b0 : byte) (r : list byte) :
  (Byte.to_N b0 < 128)%N ->
  decode_utf8 (b0 :: r)
  = let! s := decode_utf8 r in Ok (Byte.to_N b0 :: s).
Proof.
  intros H0. cbn [decode_utf8].
  rewrite (proj2 (N.ltb_lt _ _) H0). reflexivity.
Qed.

Lemma decode_utf8_two (b0 b1 : byte) (r : list byte) :
  (194 <= Byte.to_N b0 <= 223)%N -> (128 <= Byte.to_N b1 <= 191)%N ->
  decode_utf8 (b0 :: b1 :: r)
  = let! s := decode_utf8 r in
    Ok (((Byte.to_N b0 - 192) * 64 + low6 b1)%N :: s).
Proof.
  intros H0 H1. cbn [decode_utf8]. unfold cont, in_range.
  destruct (Byte.to_N b0 <? 128)%N eqn:T0; [absurd_arith|].
  destruct ((194 <=? Byte.to_N b0) && (Byte.to_N b0 <=? 223))%N eqn:T1;
    [|absurd_arith].
  destruct ((128 <=? Byte.to_N b1) && (Byte.to_N b1 <=? 191))%N eqn:T2;
    [reflexivity | absurd_arith].
Qed.

Lemma decode_utf8_three (b0 b1 b2 : byte) (r : list byte) :
  (224 <= Byte.to_N b0 <= 239)%N ->
  (128 <= Byte.to_N b1 <= 191)%N ->
  (Byte.to_N b0 = 224 -> 160 <= Byte.to_N b1)%N ->
  (Byte.to_N b0 = 237 -> Byte.to_N b1 <= 159)%N ->
  (128 <= Byte.to_N b2 <= 191)%N ->
  decode_utf8 (b0 :: b1 :: b2 :: r)
  = let! s := decode_utf8 r in
    Ok (((Byte.to_N b0 - 224) * 4096 + low6 b1 * 64 + low6 b2)%N :: s).
Proof.
  intros H0 H1 Hlo Hhi H2. cbn [decode_utf8]. unfold cont, in_range.
  destruct (Byte.to_N b0 <? 128)%N eqn:T0; [absurd_arith|].
  destruct ((194 <=? Byte.to_N b0) && (Byte.to_N b0 <=? 223))%N eqn:T1;
    [absurd_arith|].
  destruct ((224 <=? Byte.to_N b0) && (Byte.to_N b0 <=? 239))%N eqn:T2;
    [|absurd_arith].
  destruct (Byte.to_N b0 =? 224)%N eqn:E0, (Byte.to_N b0 =? 237)%N eqn:E1;
    match goal with
    | |- context [if ?t then _ else _] =>
        destruct t eqn:T3; [reflexivity | absurd_arith]
    end.
Qed.

Lemma decode_utf8_four (b0 b1 b2 b3 : byte) (r : list byte) :
  (240 <= Byte.to_N b0 <= 244)%N ->
  (128 <= Byte.to_N b1 <= 191)%N ->
  (Byte.to_N b0 = 240 -> 144 <= Byte.to_N b1)%N ->
  (Byte.to_N b0 = 244 -> Byte.to_N b1 <= 143)%N ->
  (128 <= Byte.to_N b2 <= 191)%N ->
  (128 <= Byte.to_N b3 <= 191)%N ->
  decode_utf8 (b0 :: b1 :: b2 :: b3 :: r)
  = let! s := decode_utf8 r in
    Ok (((Byte.to_N b0 - 240) * 262144 + low6 b1 * 4096
         + low6 b2 * 64 + low6 b3)%N :: s).
Proof.
  intros H0 H1 Hlo Hhi H2 H3. cbn [decode_utf8]. unfold cont, in_range.
  destruct (Byte.to_N b0 <? 128)%N eqn:T0; [absurd_arith|].
  destruct ((194 <=? Byte.to_N b0) && (Byte.to_N b0 <=? 223))%N eqn:T1;
    [absurd_arith|].
  destruct ((224 <=? Byte.to_N b0) && (Byte.to_N b0 <=? 239))%N eqn:T2;
    [absurd_arith|].
  destruct ((240 <=? Byte.to_N b0) && (Byte.to_N b0 <=? 244))%N eqn:T3;
    [|absurd_arith].
  destruct (Byte.to_N b0 =? 240)%N eqn:E0, (Byte.to_N b0 =? 244)%N eqn:E1;
    match goal with
    | |- context [if ?t then _ else _] =>
        destruct t eqn:T4; [reflexivity | absurd_arith]
    end.
Qed.

(** The decoder reads the encoding of a character back. *)
Lemma decode_utf8_char (c : N) (bs r : list byte) :
  scalar c = true -> map Byte.to_N bs = utf8_bytes c ->
  decode_utf8 (bs ++ r) = let! s := decode_utf8 r in Ok (c :: s).
Proof.
  unfold scalar, utf8_bytes. intros Hc Hbs.
  destruct (c <? 128)%N eqn:C1;
    [|destruct (c <? 2048)%N eqn:C2; [|destruct (c <? 65536)%N eqn:C3]].
  - destruct bs as [|b0 [|? ?]]; try discriminate. injection Hbs as H0.
    cbn [app]. rewrite decode_utf8_one by n_arith. rewrite H0. reflexivity.
  - destruct bs as [|b0 [|b1 [|? ?]]]; try discriminate.
    simpl in Hbs. simplify_eq. cbn [app].
    rewrite decode_utf8_two by n_arith. unfold low6.
    replace ((Byte.to_N b0 - 192) * 64 + (Byte.to_N b1 - 128))%N with c
      by n_arith.
    reflexivity.
  - destruct bs as [|b0 [|b1 [|b2 [|? ?]]]]; try discriminate.
    simpl in Hbs. simplify_eq. cbn [app].
    rewrite decode_utf8_three by n_arith. unfold low6.
    replace ((Byte.to_N b0 - 224) * 4096 + (Byte.to_N b1 - 128) * 64
             + (Byte.to_N b2 - 128))%N with c by n_arith.
    reflexivity.
  - destruct bs as [|b0 [|b1 [|b2 [|b3 [|? ?]]]]]; try discriminate.
    simpl in Hbs. simplify_eq. cbn [app].
    rewrite decode_utf8_four by n_arith. unfold low6.
    replace ((Byte.to_N b0 - 240) * 262144 + (Byte.to_N b1 - 128) * 4096
             + (Byte.to_N b2 - 128) * 64 + (Byte.to_N b3 - 128))%N with c
      by n_arith.
    reflexivity.
Qed.

Lemma utf8_bytes_small (c : N) :
  scalar c = true -> Forall (fun n => (n < 256)%N) (utf8_bytes c).
Proof.
  unfold scalar, utf8_bytes. intros Hc.
  destruct (c <? 128)%N eqn:C1;
    [|destruct (c <? 2048)%N eqn:C2; [|destruct (c <? 65536)%N eqn:C3]];
    repeat constructor; n_arith.
Qed.

Lemma decode_utf8_mojibake (t : pystr) (bs : list byte) :
  Forall (fun c => scalar c = true) t ->
  map Byte.to_N bs = mojibake t -> decode_utf8 bs = Ok t.
Proof.
  intros Ht. revert bs.
  induction Ht as [|c t Hc _ IH]; intros bs Hbs.
  - destruct bs; [reflexivity | discriminate].
  - change (mojibake (c :: t)) with (utf8_bytes c ++ mojibake t) in Hbs.
    apply map_eq_app in Hbs as (bs1 & bs2 & -> & H1 & H2).
    rewrite (decode_utf8_char c bs1 bs2 Hc H1), (IH bs2 H2). reflexivity.
Qed.

(** X3: the corruption is undone.  For every text of Unicode scalar
    values, the text obtained by reading its UTF-8 bytes as Latin-1
    characters is repaired to the text itself. *)
Theorem fix_encoding_undoes_mojibake (t : pystr) :
  Forall (fun c => scalar c = true) t ->
  fix_encoding (Some (mojibake t)) = Ok t.
Proof.
  intros Ht.
  destruct (encode_latin1_bytes (mojibake t)) as [bs [He Hm]].
  { unfold mojibake. induction Ht as [|c t Hc _ IH]; [constructor|].
    simpl. apply Forall_app. split; [now apply utf8_bytes_small | exact IH]. }
  unfold fix_encoding, reinterpret. rewrite He. simpl.
  rewrite (decode_utf8_mojibake t bs Ht Hm). reflexivity.
Qed.

(** The word for yes in Japanese and a face, U+306F U+3044 U+1F600, come
    back from their eleven Latin-1 characters. *)
Lemma fix_encoding_undoes_mojibake_witness :
  fix_encoding
    (Some [227; 129; 175; 227; 129; 132; 32; 240; 159; 152; 128]%N)
  = Ok [12399; 12356; 32; 128512]%N.
Proof.
  apply (fix_encoding_undoes_mojibake [12399; 12356; 32; 128512]%N).
  apply (bool_decide_unpack _). vm_compute. exact I.
Defined.

Lemma encode_latin1_values (t : pystr) (bs : list byte) :
  encode_latin1 t = Ok bs -> map Byte.to_N bs = t.
Proof.
  revert bs. induction t as [|c t IH]; simpl; intros bs He.
  - injection He as <-. reflexivity.
  - destruct (Byte.of_N c) as [b|] eqn:Hb; [|discriminate].
    destruct (encode_latin1 t) as [bs'|]; [|discriminate].
    simpl in He. injection He as <-. simpl.
    rewrite (Byte.to_of_N _ Hb), (IH bs' eq_refl). reflexivity.
Qed.

Ltac decoded_tail IH H :=
  match type of H with
  | bind (decode_utf8 ?r) _ = Ok _ =>
      let s' := fresh "s" in
      let Hr := fresh "Hr" in
      destruct (decode_utf8 r) as [s'|] eqn:Hr; [|discriminate H];
      simpl in H; injection H as <-;
      apply IH in Hr as [Hr ?]; [|simpl in *; lia]
  end.

(** What the decoder accepts is the encoding of what it returns. *)
Lemma decode_utf8_sound (n : nat) (bs : list byte) (s : pystr) :
  (length bs <= n)%nat -> decode_utf8 bs = Ok s ->
  mojibake s = map Byte.to_N bs /\ Forall (fun c => scalar c = true) s.
Proof.
  revert bs s. induction n as [|n IH]; intros bs s Hlen Hd.
  { destruct bs; [|simpl in Hlen; lia]. injection Hd as <-.
    split; [reflexivity | constructor]. }
  destruct bs as [|b0 r0].
  { injection Hd as <-. split; [reflexivity | constructor]. }
  cbn [decode_utf8] in Hd. unfold cont, in_range, low6 in Hd.
  destruct (Byte.to_N b0 <? 128)%N eqn:T0.
  { decoded_tail IH Hd.
    change (mojibake (?c :: ?t)) with (utf8_bytes c ++ mojibake t).
    rewrite Hr. unfold utf8_bytes, scalar. rewrite T0.
    split; [reflexivity|]. constructor; [|assumption].
    apply orb_true_iff. left. apply N.ltb_lt. n_arith. }
  destruct ((194 <=? Byte.to_N b0) && (Byte.to_N b0 <=? 223))%N eqn:T1.
  { destruct r0 as [|b1 r1]; [discriminate|].
    destruct ((128 <=? Byte.to_N b1) && (Byte.to_N b1 <=? 191))%N eqn:T2;
      [|discriminate].
    decoded_tail IH Hd.
    change (mojibake (?c :: ?t)) with (utf8_bytes c ++ mojibake t).
    rewrite Hr. unfold utf8_bytes, scalar.
    set (c := ((Byte.to_N b0 - 192) * 64 + (Byte.to_N b1 - 128))%N).
    assert (Hc : (128 <= c < 2048)%N) by (subst c; n_arith).
    rewrite (proj2 (N.ltb_ge _ _) (proj1 Hc)),
            (proj2 (N.ltb_lt _ _) (proj2 Hc)).
    split.
    - cbn [app map]. f_equal; [|f_equal]; subst c; n_arith.
    - constructor; [|assumption].
      apply orb_true_iff. left. apply N.ltb_lt. lia. }
  destruct ((224 <=? Byte.to_N b0) && (Byte.to_N b0 <=? 239))%N eqn:T2.
  { destruct r0 as [|b1 [|b2 r2]]; try discriminate.
    match type of Hd with
    | (if ?t then _ else _) = _ => destruct t eqn:T3; [|discriminate]
    end.
    decoded_tail IH Hd.
    change (mojibake (?c :: ?t)) with (utf8_bytes c ++ mojibake t).
    rewrite Hr. unfold utf8_bytes, scalar.
    set (c := ((Byte.to_N b0 - 224) * 4096 + (Byte.to_N b1 - 128) * 64
               + (Byte.to_N b2 - 128))%N).
    assert (Hc : (2048 <= c < 65536 /\ (c < 55296 \/ 57343 < c))%N).
    { subst c. destruct (Byte.to_N b0 =? 224)%N eqn:E0,
        (Byte.to_N b0 =? 237)%N eqn:E1; n_arith. }
    destruct Hc as [Hc Hs].
    replace (c <? 128)%N with false by (symmetry; apply N.ltb_ge; lia).
    rewrite (proj2 (N.ltb_ge _ _) (proj1 Hc)),
            (proj2 (N.ltb_lt _ _) (proj2 Hc)).
    split.
    - clear Hs Hc. cbn [app map]. subst c.
      destruct (Byte.to_N b0 =? 224)%N eqn:E0,
        (Byte.to_N b0 =? 237)%N eqn:E1;
        (f_equal; [|f_equal; [|f_equal]]; n_arith).
    - constructor; [|assumption].
      apply orb_true_iff. destruct Hs as [Hs|Hs]; [left|right].
      + apply N.ltb_lt. exact Hs.
      + apply andb_true_iff. split; apply N.ltb_lt; lia. }
  destruct ((240 <=? Byte.to_N b0) && (Byte.to_N b0 <=? 244))%N eqn:T3;
    [|discriminate].
  destruct r0 as [|b1 [|b2 [|b3 r3]]]; try discriminate.
  match type of Hd with
  | (if ?t then _ else _) = _ => destruct t eqn:T4; [|discriminate]
  end.
  decoded_tail IH Hd.
  change (mojibake (?c :: ?t)) with (utf8_bytes c ++ mojibake t).
  rewrite Hr. unfold utf8_bytes, scalar.
  set (c := ((Byte.to_N b0 - 240) * 262144 + (Byte.to_N b1 - 128) * 4096
             + (Byte.to_N b2 - 128) * 64 + (Byte.to_N b3 - 128))%N).
  assert (Hc : (65536 <= c < 1114112)%N).
  { subst c. destruct (Byte.to_N b0 =? 240)%N eqn:E0,
      (Byte.to_N b0 =? 244)%N eqn:E1; n_arith. }
  replace (c <? 128)%N with false by (symmetry; apply N.ltb_ge; lia).
  replace (c <? 2048)%N with false by (symmetry; apply N.ltb_ge; lia).
  rewrite (proj2 (N.ltb_ge _ _) (proj1 Hc)).
  split.
  - clear Hc. cbn [app map]. subst c.
    destruct (Byte.to_N b0 =? 240)%N eqn:E0,
      (Byte.to_N b0 =? 244)%N eqn:E1;
      (f_equal; [|f_equal; [|f_equal; [|f_equal]]]; n_arith).
  - constructor; [|assumption].
    apply orb_true_iff. right.
    apply andb_true_iff. split; apply N.ltb_lt; lia.
Qed.

(** X4: [fix_encoding] changes a text only by undoing the corruption: its
    result is the text itself, or a text of Unicode scalar values whose
    UTF-8 bytes, read as Latin-1, are the text it was given. *)
Theorem fix_encoding_only_undoes_mojibake (t s : pystr) :
  fix_encoding (Some t) = Ok s ->
  s = t \/ (mojibake s = t /\ Forall (fun c => scalar c = true) s).
Proof.
  unfold fix_encoding, reinterpret, try_except, bind. intros Hf.
  destruct (encode_latin1 t) as [bs|] eqn:He; [|left; congruence].
  destruct (decode_utf8 bs) as [s'|] eqn:Hd; [|left; congruence].
  injection Hf as <-. right.
  destruct (decode_utf8_sound (length bs) bs s' (Nat.le_refl _) Hd) as [Hm Hs].
  split; [|exact Hs]. rewrite Hm. now apply encode_latin1_values.
Qed.

Lemma fix_encoding_only_undoes_mojibake_witness :
  mojibake [233%N] = [195%N; 169%N].
Proof.
  destruct (fix_encoding_only_undoes_mojibake [195%N; 169%N] [233%N] eq_refl)
    as [Hsame|[Hm _]]; [discriminate Hsame | exact Hm].
Defined.

(** ** Splitting and stripping *)

(** The first piece of a split: the text up to the first separator. *)
Lemma split_hd (c : N) (s : pystr) :
  (c ∉ hd [] (split c s))
  /\ (hd [] (split c s) = s
      \/ exists rest, s = hd [] (split c s) ++ c :: rest).
Proof.
  induction s as [|x s [IHn IHs]]; simpl.
  - split; [apply not_elem_of_nil | left; reflexivity].
  - destruct (N.eqb_spec x c) as [->|Hx]; simpl.
    + split; [apply not_elem_of_nil | right; exists s; reflexivity].
    + destruct (split c s) as [|w ws] eqn:Hs; simpl in *.
      * split; [|destruct IHs as [<-|[rest ->]];
                 [left; reflexivity | right; exists rest; reflexivity]].
        intros Hin. apply list_elem_of_singleton in Hin. congruence.
      * split.
        -- intros Hin. apply elem_of_cons in Hin as [Hin|Hin];
             [congruence | exact (IHn Hin)].
        -- destruct IHs as [->|[rest ->]];
             [left; reflexivity | right; exists rest; reflexivity].
Qed.

Lemma split_nonempty (c : N) (s : pystr) : split c s <> [].
Proof.
  destruct s as [|x s]; simpl; [discriminate|].
  destruct (x =? c)%N; [discriminate|]. destruct (split c s); discriminate.
Qed.

(** No piece of a split holds the separator, and every piece is a run of
    the text. *)
Lemma split_pieces (c : N) (s : pystr) :
  Forall (fun w => (c ∉ w) /\ exists p q, s = p ++ w ++ q) (split c s).
Proof.
  induction s as [|x s IH]; simpl.
  - constructor; [|constructor].
    split; [apply not_elem_of_nil | exists [], []; reflexivity].
  - destruct (N.eqb_spec x c) as [->|Hx].
    + constructor.
      * split; [apply not_elem_of_nil | exists [], (c :: s); reflexivity].
      * eapply Forall_impl; [exact IH|]. simpl.
        intros w [Hw (p & q & ->)]. split; [exact Hw|].
        exists (c :: p), q. reflexivity.
    + pose proof (split_nonempty c s) as Hne.
      pose proof (split_hd c s) as [_ Hhd].
      destruct (split c s) as [|w ws]; [congruence|].
      apply Forall_cons in IH as [[Hw _] IH]. simpl in Hhd.
      constructor.
      * split.
        -- intros Hin. apply elem_of_cons in Hin as [Hin|Hin];
             [congruence | exact (Hw Hin)].
        -- destruct Hhd as [->|[rest ->]].
           ++ exists [], []. rewrite app_nil_r. reflexivity.
           ++ exists [], (c :: rest). reflexivity.
      * eapply Forall_impl; [exact IH|]. simpl.
        intros w' [Hw' (p' & q' & ->)]. split; [exact Hw'|].
        exists (x :: p'), q'. reflexivity.
Qed.

Lemma lstrip_suffix (s : pystr) :
  exists p, s = p ++ lstrip s /\ Forall (fun c => isspace c = true) p.
Proof.
  induction s as [|c s (p & Hs & Hp)]; simpl.
  - exists []. split; [reflexivity | constructor].
  - destruct (isspace c) eqn:Hc.
    + exists (c :: p). split; [simpl; congruence | now constructor].
    + exists []. split; [reflexivity | constructor].
Qed.

Lemma lstrip_head (s : pystr) :
  match lstrip s with [] => True | c :: _ => isspace c = false end.
Proof.
  induction s as [|c s IH]; simpl; [exact I|].
  destruct (isspace c) eqn:Hc; [exact IH | exact Hc].
Qed.

Lemma rstrip_prefix (s : pystr) :
  exists q, s = rstrip s ++ q /\ Forall (fun c => isspace c = true) q.
Proof.
  unfold rstrip. destruct (lstrip_suffix (rev s)) as (p & Hs & Hp).
  exists (rev p). split; [|now apply Forall_rev].
  rewrite <- rev_app_distr, <- Hs, rev_involutive. reflexivity.
Qed.

(** Stripping keeps a run of the text, between two runs of blanks. *)
Lemma strip_run (s : pystr) :
  exists p q, s = p ++ strip s ++ q
              /\ Forall (fun c => isspace c = true) p
              /\ Forall (fun c => isspace c = true) q.
Proof.
  unfold strip. destruct (lstrip_suffix s) as (p & Hs & Hp).
  destruct (rstrip_prefix (lstrip s)) as (q & Hl & Hq).
  exists p, q. split; [|split; assumption]. rewrite <- Hl. exact Hs.
Qed.

Lemma strip_keeps (s : pystr) (c : N) :
  c ∈ s -> isspace c = false -> c ∈ strip s.
Proof.
  intros Hin Hc. destruct (strip_run s) as (p & q & Hs & Hp & Hq).
  rewrite Hs in Hin. rewrite Forall_forall in Hp, Hq.
  apply elem_of_app in Hin as [Hin|Hin]; [specialize (Hp _ Hin); congruence|].
  apply elem_of_app in Hin as [Hin|Hin]; [exact Hin|].
  specialize (Hq _ Hin). congruence.
Qed.

Lemma strip_subset (s : pystr) (c : N) : c ∈ strip s -> c ∈ s.
Proof.
  intros Hin. destruct (strip_run s) as (p & q & Hs & _).
  rewrite Hs. apply elem_of_app. right. apply elem_of_app. now left.
Qed.

(** ** Links *)

(** X5: [clean_url] returns the link up to its first question mark: the
    result holds no question mark, the link is the result followed by
    nothing or by a question mark and more, a link without question mark is
    unchanged, and cleaning twice is cleaning once. *)
Theorem clean_url_strips_query (url : pystr) :
  (ch "?" ∉ clean_url url)
  /\ (clean_url url = url
      \/ exists rest, url = clean_url url ++ ch "?" :: rest)
  /\ (ch "?" ∉ url -> clean_url url = url)
  /\ clean_url (clean_url url) = clean_url url.
Proof.
  assert (Hhd : forall u, clean_url u = hd [] (split (ch "?") u)).
  { intros [|x u]; reflexivity. }
  pose proof (split_hd (ch "?") url) as [Hno Hcases].
  rewrite <- Hhd in Hno, Hcases.
  assert (Hfix : forall u, ch "?" ∉ u -> clean_url u = u).
  { intros u Hu. pose proof (split_hd (ch "?") u) as [_ Hc].
    rewrite <- Hhd in Hc. destruct Hc as [Hc|[rest Hc]]; [exact Hc|].
    exfalso. apply Hu. rewrite Hc. apply elem_of_app. right. left. }
  split; [exact Hno|]. split; [exact Hcases|]. split; [apply Hfix|].
  apply Hfix. exact Hno.
Qed.

Lemma replace_introduces (a b x : N) (s : pystr) :
  x ∈ replace a b s -> x = b \/ (x ∈ s /\ x <> a).
Proof.
  unfold replace. intros Hin. apply list_elem_of_fmap in Hin as (y & -> & Hy).
  destruct (N.eqb_spec y a) as [->|Hne]; [left; reflexivity|].
  right. split; assumption.
Qed.

(** X6: the theme of an animation is a single token: it holds no space, no
    hyphen and no slash, whatever the link. *)
Theorem gif_slug_is_a_token (link : pystr) :
  (ch " " ∉ gif_slug link) /\ (ch "-" ∉ gif_slug link)
  /\ (ch "/" ∉ gif_slug link).
Proof.
  unfold gif_slug. destruct (contains (lit "/") link).
  2: { repeat split; intros Hin; apply (bool_decide_pack _) in Hin;
       vm_compute in Hin; exact Hin. }
  set (seg := List.last (split (ch "/") link) []).
  assert (Hseg : ch "/" ∉ seg).
  { pose proof (split_pieces (ch "/") link) as Hp.
    pose proof (split_nonempty (ch "/") link) as Hne.
    rewrite Forall_forall in Hp.
    destruct (Hp seg) as [Hno _]; [|exact Hno].
    apply list_elem_of_In. subst seg.
    destruct (exists_last Hne) as (l' & a & ->).
    rewrite last_last. apply in_or_app. right. now left. }
  pose proof (split_hd (ch " ") (replace (ch "-") (ch " ") seg)) as [Hsp Hrun].
  assert (Hsub : forall x, x ∈ hd [] (split (ch " ")
                                    (replace (ch "-") (ch " ") seg)) ->
                           x ∈ replace (ch "-") (ch " ") seg).
  { intros x Hx. destruct Hrun as [<-|[rest ->]]; [exact Hx|].
    apply elem_of_app. now left. }
  split; [exact Hsp|]. split.
  - intros Hin. apply Hsub, replace_introduces in Hin as [Hin|[_ Hin]];
      [discriminate Hin | congruence].
  - intros Hin. apply Hsub, replace_introduces in Hin as [Hin|[Hin _]];
      [discriminate Hin | exact (Hseg Hin)].
Qed.

(** ** Durations and suppression *)

(** X7: different call durations are rendered differently: the marker
    determines the duration, zero included. *)
Theorem format_duration_injective (d1 d2 : Z) :
  d1 <> d2 -> format_duration d1 <> format_duration d2.
Proof.
  intros Hdiff Hsame. apply Hdiff. revert Hsame.
  assert (Hmissed : forall d, d <> 0 ->
            format_duration d <> lit "MISSED/CANCELLED").
  { intros d Hd Heq. unfold format_duration in Heq.
    apply Z.eqb_neq in Hd. rewrite Hd in Heq.
    pose proof (fmt_02d_seconds (d mod 60) (Z.mod_pos_bound d 60 ltac:(lia)))
      as Hlen.
    change (lit "MISSED/CANCELLED")
      with (lit "MISSED/CANCEL" ++ lit "L" ++ lit "ED") in Heq.
    apply app_inj_2 in Heq as [_ Heq]; [|simpl; rewrite Hlen; reflexivity].
    discriminate Heq. }
  intros Heq.
  destruct (Z.eq_dec d1 0) as [->|H1], (Z.eq_dec d2 0) as [->|H2].
  - reflexivity.
  - symmetry in Heq. destruct (Hmissed d2 H2 Heq).
  - destruct (Hmissed d1 H1 Heq).
  - unfold format_duration in Heq.
    rewrite (proj2 (Z.eqb_neq _ _) H1), (proj2 (Z.eqb_neq _ _) H2) in Heq.
    pose proof (fmt_02d_seconds (d1 mod 60) (Z.mod_pos_bound d1 60 ltac:(lia))).
    pose proof (fmt_02d_seconds (d2 mod 60) (Z.mod_pos_bound d2 60 ltac:(lia))).
    apply app_inj_2 in Heq as [Hm Hs]; [|simpl; congruence].
    injection Hs as Hs.
    assert (Hq : d1 / 60 = d2 / 60).
    { pose proof (fmt_02d_reads_back (d1 / 60)) as R1.
      pose proof (fmt_02d_reads_back (d2 / 60)) as R2. congruence. }
    assert (Hr : d1 mod 60 = d2 mod 60).
    { pose proof (fmt_02d_reads_back (d1 mod 60)) as R1.
      pose proof (fmt_02d_reads_back (d2 mod 60)) as R2. congruence. }
    rewrite (Z.div_mod d1 60), (Z.div_mod d2 60) by lia. congruence.
Qed.

(** An hour short of a second and the full hour. *)
Lemma format_duration_injective_witness :
  format_duration 3599 <> format_duration 3600.
Proof.
  apply (format_duration_injective 3599 3600). lia.
Defined.

Section Suppression.
Context `{Host}.
Variable meta_choice : pystr.

Lemma strip_bracketed (s : pystr) : strip (lit "[" ++ s) <> [].
Proof.
  intros Heq.
  assert (Hin : ch "[" ∈ strip (lit "[" ++ s)).
  { apply strip_keeps; [left | reflexivity]. }
  rewrite Heq in Hin. inversion Hin.
Qed.

Lemma link_line_nonempty (link : pystr) : link_line link <> [].
Proof. discriminate. Qed.

(** What is left of a message without share payload, photos and edited
    flag. *)
Lemma plain_final_content (msg : Message) :
  dict_truthy (share_data msg) = false ->
  truthy (default [] (photos msg)) = false ->
  default false (is_edited msg) = false ->
  final_content meta_choice msg = with_call msg (classified msg)
  /\ share_block meta_choice msg = [].
Proof.
  intros Hs Hp He. unfold final_content, share_block, with_edited, with_photos.
  rewrite He, Hp, (with_share_no_payload _ _ _ Hs). split; reflexivity.
Qed.

Lemma truthy_false {A : Type} (l : list A) : truthy l = false <-> l = [].
Proof. destruct l; simpl; split; congruence. Qed.

(** X8: the messages the transcript drops.  A message is suppressed
    exactly when it has no call duration, no share payload, no photos and
    no edited flag, none of the rules 1 to 4 applies to it, and its text is
    empty or holds a system phrase. *)
Theorem suppressed_exactly_when (msg : Message) :
  emitted meta_choice msg = false
  <-> call_duration msg = None
      /\ dict_truthy (share_data msg) = false
      /\ truthy (default [] (photos msg)) = false
      /\ default false (is_edited msg) = false
      /\ unsent msg = false /\ geoblocked msg = false
      /\ has_sticker msg = false /\ has_voice msg = false
      /\ (sys_msg msg = true \/ raw_content msg = []).
Proof.
  split.
  - unfold emitted. intros He. apply orb_false_iff in He as [Hc Hb].
    apply truthy_false in Hc, Hb.
    (* the flags that make the content non-empty *)
    assert (Hedit : default false (is_edited msg) = false).
    { destruct (default false (is_edited msg)) eqn:E; [|reflexivity].
      unfold final_content, with_edited in Hc. rewrite E in Hc.
      apply app_eq_nil in Hc as [_ Hc]. discriminate Hc. }
    assert (Hphoto : truthy (default [] (photos msg)) = false).
    { destruct (truthy (default [] (photos msg))) eqn:E; [|reflexivity].
      unfold final_content, with_edited, with_photos in Hc.
      rewrite Hedit, E in Hc. destruct (strip_bracketed _ Hc). }
    assert (Hshare : dict_truthy (share_data msg) = false).
    { destruct (dict_truthy (share_data msg)) eqn:E; [|reflexivity].
      unfold final_content, with_edited, with_photos in Hc.
      rewrite Hedit, Hphoto in Hc.
      unfold share_block in Hb. unfold with_share in Hc, Hb.
      rewrite E in Hc, Hb.
      repeat match type of Hb with
             | context [if str_eqb ?a ?b then _ else _] =>
                 destruct (str_eqb a b)
             end; cbn [fst snd] in Hb, Hc;
        try (apply app_eq_nil in Hb as [Hb _];
             destruct (link_line_nonempty _ Hb));
        try destruct (link_line_nonempty _ Hb).
      change (lit "[" ++ ?a ++ ?b) with (lit "[" ++ (a ++ b)) in Hc.
      destruct (strip_bracketed _ Hc). }
    destruct (plain_final_content msg Hshare Hphoto Hedit) as [Hfc _].
    rewrite Hfc in Hc. unfold with_call in Hc.
    destruct (call_duration msg); [discriminate Hc|].
    unfold classified in Hc.
    destruct (unsent msg); [discriminate Hc|].
    destruct (geoblocked msg); [discriminate Hc|].
    destruct (has_sticker msg); [discriminate Hc|].
    destruct (has_voice msg); [discriminate Hc|].
    repeat split; try reflexivity; try assumption.
    destruct (sys_msg msg); [left; reflexivity | right; exact Hc].
  - intros (Hcall & Hshare & Hphoto & Hedit & Hu & Hg & Hst & Hv & Htext).
    destruct (plain_final_content msg Hshare Hphoto Hedit) as [Hfc Hsb].
    unfold emitted. rewrite Hfc, Hsb. unfold with_call, classified.
    rewrite Hcall, Hu, Hg, Hst, Hv.
    destruct Htext as [->| ->]; [reflexivity|].
    destruct (sys_msg msg); reflexivity.
Qed.

End Suppression.

(** ** Captions *)

Section CaptionFacts.
Context `{Host}.

Lemma hashtag_free_cons (x : N) (s : pystr) :
  hashtag_free (x :: s)
  <-> (x = ch "#" -> starts_plain s) /\ hashtag_free s.
Proof.
  unfold hashtag_free. split.
  - intros Hf. split.
    + intros ->. destruct s as [|d s]; [exact I|].
      apply (Hf [] d s). reflexivity.
    + intros a c b ->. apply (Hf (x :: a) c b). reflexivity.
  - intros [Hx Hs] a c b Heq. destruct a as [|y a].
    + injection Heq as -> ->. exact (Hx eq_refl).
    + injection Heq as _ ->. apply (Hs a c b). reflexivity.
Qed.

Lemma hashtag_free_nil : hashtag_free [].
Proof. intros [|? ?] c b Heq; discriminate Heq. Qed.

Lemma hashtag_free_run (p s q : pystr) :
  hashtag_free (p ++ s ++ q) -> hashtag_free s.
Proof.
  intros Hf a c b ->. apply (Hf (p ++ a) c (b ++ q)).
  rewrite <- !app_assoc. reflexivity.
Qed.

Lemma hashtag_free_joined (a b : pystr) (c : N) :
  hashtag_free a -> hashtag_free b -> re_word c = false -> c <> ch "#" ->
  hashtag_free (a ++ c :: b).
Proof.
  intros Ha Hb Hc Hne. induction a as [|x a IH]; simpl.
  - apply hashtag_free_cons. split; [congruence | exact Hb].
  - apply hashtag_free_cons in Ha as [Hx Ha].
    apply hashtag_free_cons. split; [|exact (IH Ha)].
    intros Heq. specialize (Hx Heq). destruct a; [exact Hc | exact Hx].
Qed.

Lemma sub_hashtags_cons (skip : bool) (c : N) (r : pystr) :
  sub_hashtags skip (c :: r)
  = if skip && re_word c then sub_hashtags true r
    else if (c =? ch "#")%N
            && match r with d :: _ => re_word d | [] => false end
    then sub_hashtags true r
    else c :: sub_hashtags false r.
Proof. reflexivity. Qed.

(** The substitution leaves no hashtag, in either of its two states. *)
Lemma sub_hashtags_free (text : pystr) :
  (hashtag_free (sub_hashtags true text)
   /\ starts_plain (sub_hashtags true text))
  /\ (hashtag_free (sub_hashtags false text)
      /\ (starts_plain text -> starts_plain (sub_hashtags false text))).
Proof.
  induction text as [|c r [[IHt1 IHt2] [IHf1 IHf2]]].
  - repeat split; try apply hashtag_free_nil; auto.
  - rewrite !sub_hashtags_cons.
    set (tag := (c =? ch "#")%N
                && match r with d :: _ => re_word d | [] => false end).
    assert (Htag : tag = false -> c = ch "#" -> starts_plain r).
    { unfold tag. intros Hb ->. rewrite N.eqb_refl in Hb.
      destruct r; [exact I | exact Hb]. }
    assert (Hkeep : tag = false -> hashtag_free (c :: sub_hashtags false r)).
    { intros Ht. apply hashtag_free_cons. split; [|exact IHf1].
      intros Heq. apply IHf2, Htag; assumption. }
    cbn [andb]. destruct (re_word c) eqn:Hw, tag eqn:Ht;
      repeat split; auto.
Qed.

Lemma join_elements (sep : pystr) (ls : list pystr) (x : N) :
  x ∈ join sep ls -> x ∈ sep \/ exists l, l ∈ ls /\ x ∈ l.
Proof.
  induction ls as [|l ls IH]; simpl; [intros Hin; inversion Hin|].
  destruct ls as [|l' ls'].
  - intros Hin. right. exists l. split; [left | exact Hin].
  - intros Hin. apply elem_of_app in Hin as [Hin|Hin].
    + right. exists l. split; [left | exact Hin].
    + apply elem_of_app in Hin as [Hin|Hin]; [left; exact Hin|].
      destruct (IH Hin) as [Hs|(l0 & Hl0 & Hx)]; [left; exact Hs|].
      right. exists l0. split; [right; exact Hl0 | exact Hx].
Qed.

Lemma join_hashtag_free (ls : list pystr) :
  re_word (ch " ") = false ->
  Forall hashtag_free ls -> hashtag_free (join (lit " ") ls).
Proof.
  intros Hsp Hls. induction Hls as [|l ls Hl Hls IH]; simpl.
  - apply hashtag_free_nil.
  - destruct ls as [|l' ls']; [exact Hl|].
    change (lit " " ++ ?r) with (ch " " :: r).
    apply hashtag_free_joined; [exact Hl | exact IH | exact Hsp | discriminate].
Qed.

Lemma strip_ends (s : pystr) :
  match strip s with
  | [] => True
  | c :: r => isspace c = false /\ isspace (List.last r c) = false
  end.
Proof.
  unfold strip. pose proof (lstrip_head s) as Hhead.
  destruct (rstrip_prefix (lstrip s)) as (q & Hq & _).
  pose proof (lstrip_head (rev (lstrip s))) as Hlast.
  unfold rstrip in *.
  destruct (rev (lstrip (rev (lstrip s)))) as [|c r] eqn:Hr; [exact I|].
  split.
  - rewrite Hq in Hhead. exact Hhead.
  - assert (Hrev : lstrip (rev (lstrip s)) = rev (c :: r)).
    { rewrite <- Hr, rev_involutive. reflexivity. }
    destruct (exists_last (l := c :: r) ltac:(discriminate))
      as (l' & z & Hz).
    rewrite Hrev, Hz, rev_app_distr in Hlast. cbn [rev app] in Hlast.
    replace (List.last r c) with (List.last (c :: r) c)
      by (destruct r; reflexivity).
    rewrite Hz, last_last. exact Hlast.
Qed.

(** X9: [clean_caption] removes the hashtags.  When the space is no word
    character, as in Python, no [#] of the cleaned caption is followed by a
    word character, whatever lines were dropped and joined. *)
Theorem clean_caption_removes_hashtags (text : pystr) :
  re_word (ch " ") = false -> hashtag_free (clean_caption text).
Proof.
  intros Hsp. unfold clean_caption.
  destruct (strip_run (join (lit " ")
              (List.filter (fun l => negb (is_spam l))
                 (split 10%N (sub_hashtags false text)))))
    as (p & q & Hrun & _).
  apply (hashtag_free_run p _ q). rewrite <- Hrun.
  apply join_hashtag_free; [exact Hsp|].
  apply Forall_forall. intros l Hl.
  apply list_elem_of_In, filter_In in Hl as [Hl _].
  apply list_elem_of_In in Hl.
  pose proof (split_pieces 10%N (sub_hashtags false text)) as Hp.
  rewrite Forall_forall in Hp. destruct (Hp l Hl) as [_ (p' & q' & Hs)].
  apply (hashtag_free_run p' l q'). rewrite <- Hs.
  apply sub_hashtags_free.
Qed.

(** X10: the cleaned caption is one line without blanks around it: it
    holds no newline, and when it is not empty its first and its last
    character are no whitespace. *)
Theorem clean_caption_single_line (text : pystr) :
  (10%N ∉ clean_caption text)
  /\ match clean_caption text with
     | [] => True
     | c :: r => isspace c = false /\ isspace (List.last r c) = false
     end.
Proof.
  split; [|apply strip_ends].
  unfold clean_caption. intros Hin.
  apply strip_subset, join_elements in Hin as [Hin|(l & Hl & Hin)].
  - apply list_elem_of_singleton in Hin. discriminate Hin.
  - apply list_elem_of_In, filter_In in Hl as [Hl _].
    apply list_elem_of_In in Hl.
    pose proof (split_pieces 10%N (sub_hashtags false text)) as Hp.
    rewrite Forall_forall in Hp. destruct (Hp l Hl) as [Hno _].
    exact (Hno Hin).
Qed.

End CaptionFacts.

Lemma clean_caption_removes_hashtags_witness :
  hashtag_free (H := ascii_utc_host)
    (clean_caption (H := ascii_utc_host)
       (lit "so #cute ##x a#b_9!" ++ nl ++ lit "Follow @me" ++ nl ++ lit "#")).
Proof.
  apply (clean_caption_removes_hashtags (H := ascii_utc_host)). reflexivity.
Defined.

(** ** The loop as a whole *)

Section RunFacts.
Context `{Host}.
Variables user_name self_aware_input meta_choice : pystr.

Local Abbreviation step' := (step user_name self_aware_input meta_choice).
Local Abbreviation run' := (run user_name self_aware_input meta_choice).
Local Abbreviation header' := (header user_name self_aware_input).
Local Abbreviation full_header' := (full_header user_name self_aware_input).
Local Abbreviation emitted' := (emitted meta_choice).

Lemma step_last_date (st : State) (msg : Message) :
  last_date (step' st msg) = Some (strftime_date (ts_ms msg)).
Proof.
  assert (Hd : next_date st msg = Some (strftime_date (ts_ms msg))).
  { unfold next_date. case_bool_decide as Hd; [reflexivity|].
    destruct (decide (Some (strftime_date (ts_ms msg)) = last_date st));
      [congruence | contradiction]. }
  unfold step. destruct (emitted' msg); exact Hd.
Qed.

(** What a run appends: for each message at most one marker, and its line
    when it is emitted. *)
Lemma run_appends (st : State) (ms : list Message) :
  exists added,
    cleaned_output (run' st ms) = cleaned_output st ++ added
    /\ (length (List.filter emitted' ms) <= length added
        <= length (List.filter emitted' ms) + length ms)%nat.
Proof.
  revert st. induction ms as [|m ms IH]; intros st.
  - exists []. rewrite app_nil_r. split; [reflexivity | simpl; lia].
  - change (run' st (m :: ms)) with (run' (step' st m) ms).
    destruct (IH (step' st m)) as (added & Hout & Hlen).
    rewrite step_output in Hout.
    exists (markers st m
            ++ (if emitted' m
                then [header' st m ++ body meta_choice m] else [])
            ++ added).
    split; [rewrite Hout, <- !app_assoc; reflexivity|].
    pose proof (markers_at_most_one st m) as Hm.
    rewrite !length_app. simpl List.filter.
    unfold pystr in *. destruct (emitted' m); cbn [length]; lia.
Qed.

(** X11: the transcript only grows, and by what the messages allow: a run
    keeps the lines it started with and appends, for the messages it is
    given, at least one line per emitted message and at most one line more
    per message. *)
Theorem run_appends_at_most_two_lines (st : State) (ms : list Message) :
  exists added,
    cleaned_output (run' st ms) = cleaned_output st ++ added
    /\ (length (List.filter emitted' ms) <= length added)%nat
    /\ (length added <= length (List.filter emitted' ms) + length ms)%nat
    /\ (length added <= 2 * length ms)%nat.
Proof.
  destruct (run_appends st ms) as (added & Hout & Hlo & Hhi).
  exists added. repeat split; try assumption.
  pose proof (filter_length_le emitted' ms). lia.
Qed.

(** X12: every transcript of at least one message opens with the date
    marker of its first message, emitted or not, and after any message the
    remembered date is the date of that message. *)
Theorem transcript_opens_with_date (m : Message) (ms : list Message)
  (st : State) :
  (exists rest,
     cleaned_output (run' initial (m :: ms))
     = date_marker (strftime_date (ts_ms m)) :: rest)
  /\ last_date (step' st m) = Some (strftime_date (ts_ms m))
  /\ last_date (run' st (ms ++ [m])) = Some (strftime_date (ts_ms m)).
Proof.
  split; [|split].
  - change (run' initial (m :: ms)) with (run' (step' initial m) ms).
    destruct (run_appends (step' initial m) ms) as (added & Hout & _).
    rewrite Hout, step_output. simpl.
    eexists. reflexivity.
  - apply step_last_date.
  - rewrite run_app. apply step_last_date.
Qed.

(** X13: the first message line of a transcript has a full header: after
    any number of suppressed messages from the start, an emitted message
    is never rendered as a continuation. *)
Theorem first_line_has_full_header (mid : list Message) (m : Message) :
  Forall (fun x => emitted' x = false) mid ->
  header' (run' initial mid) m = full_header' m
  /\ header' (run' initial mid) m <> continuation.
Proof.
  intros Hmid.
  destruct (run_suppressed user_name self_aware_input meta_choice
              initial mid Hmid) as [Hs Ht].
  assert (Hh : header' (run' initial mid) m = full_header' m).
  { unfold header, grouped. rewrite Hs.
    rewrite bool_decide_eq_false_2 by discriminate. reflexivity. }
  split; [exact Hh|]. rewrite Hh. discriminate.
Qed.

(** X14: a suppressed message that triggered a time-gap marker does not
    reset the clock of the gap: the following message of the same date, if
    not earlier, triggers a gap marker again, measured from the same
    previous emitted message. *)
Theorem gap_marker_repeats_after_suppressed
  (st : State) (msg next : Message) :
  emitted' msg = false ->
  markers st msg = [gap_marker (ts_ms msg - last_timestamp st)] ->
  strftime_date (ts_ms next) = strftime_date (ts_ms msg) ->
  ts_ms msg <= ts_ms next ->
  markers (step' st msg) next
  = [gap_marker (ts_ms next - last_timestamp st)].
Proof.
  intros He Hm Hdate Hle.
  destruct (markers_cases st msg) as [[_ Hd]|[(_ & Hgap & _)|(_ & _ & Hn)]].
  - rewrite Hd in Hm.
    destruct (date_marker_not_gap_marker _ _ (f_equal (hd []) Hm)).
  - destruct (step_suppressed user_name self_aware_input meta_choice
                st msg He) as [_ Ht].
    pose proof (step_last_date st msg) as Hld.
    unfold markers. rewrite Hld, Ht, Hdate.
    rewrite bool_decide_eq_false_2 by (intros Hn; apply Hn; reflexivity).
    destruct (Z.ltb_spec GAP_THRESHOLD_MS (ts_ms next - last_timestamp st));
      [reflexivity | lia].
  - rewrite Hn in Hm. discriminate Hm.
Qed.

End RunFacts.

Lemma first_line_has_full_header_witness :
  header (H := ascii_utc_host) [] (lit "n")
    (run (H := ascii_utc_host) [] (lit "n") (lit "2") initial
       [liked_notice 1000])
    (text_message "Alice" 2000 "Hi")
  = nl ++ lit "[00:00] Alice: ".
Proof.
  apply (proj1 (first_line_has_full_header (H := ascii_utc_host)
                  [] (lit "n") (lit "2") [liked_notice 1000]
                  (text_message "Alice" 2000 "Hi")
                  ltac:(repeat constructor))).
Defined.

(** Seven hours after Hi, a system notice and then a text one second
    later: the gap is announced before each of them. *)
Lemma gap_marker_repeats_after_suppressed_witness :
  markers (H := ascii_utc_host)
    (run (H := ascii_utc_host) [] (lit "n") (lit "2") initial
       [text_message "Alice" 1000 "Hi"; liked_notice 25201000])
    (text_message "Alice" 25202000 "back")
  = [nl ++ lit "--- TIME GAP: 7.0 hours ---"].
Proof.
  apply (gap_marker_repeats_after_suppressed (H := ascii_utc_host)
           [] (lit "n") (lit "2")
           (step (H := ascii_utc_host) [] (lit "n") (lit "2") initial
              (text_message "Alice" 1000 "Hi"))
           (liked_notice 25201000) (text_message "Alice" 25202000 "back"));
    [reflexivity | reflexivity | reflexivity | vm_compute; discriminate].
Defined.

(** ** Sorting by a total order *)

Lemma str_leb_refl (a : pystr) : str_leb a a = true.
Proof.
  induction a as [|x a IH]; [reflexivity|]. simpl.
  rewrite N.eqb_refl, IH. apply orb_true_r.
Qed.

Lemma str_leb_total (a b : pystr) : str_leb a b = false -> str_leb b a = true.
Proof.
  revert b. induction a as [|x a IH]; intros [|y b]; simpl; try congruence.
  intros Hab. apply orb_false_iff in Hab as [Hlt Hrest].
  apply N.ltb_ge in Hlt.
  destruct (N.eqb_spec x y) as [->|Hne].
  - rewrite N.eqb_refl, (IH b Hrest). apply orb_true_r.
  - apply orb_true_iff. left. apply N.ltb_lt. lia.
Qed.

Lemma str_leb_trans (a b c : pystr) :
  str_leb a b = true -> str_leb b c = true -> str_leb a c = true.
Proof.
  revert b c. induction a as [|x a IH]; intros [|y b] [|z c]; simpl;
    try congruence.
  intros Hab Hbc.
  apply orb_true_iff in Hab as [Hab|Hab], Hbc as [Hbc|Hbc];
    try apply andb_true_iff in Hab as [Hxy Hab];
    try apply andb_true_iff in Hbc as [Hyz Hbc];
    try apply N.ltb_lt in Hab; try apply N.ltb_lt in Hbc;
    try apply N.eqb_eq in Hxy; try apply N.eqb_eq in Hyz; subst;
    apply orb_true_iff.
  - left. apply N.ltb_lt. lia.
  - left. apply N.ltb_lt. exact Hab.
  - left. apply N.ltb_lt. exact Hbc.
  - right. rewrite N.eqb_refl. exact (IH b c Hab Hbc).
Qed.

Lemma str_leb_antisym (a b : pystr) :
  str_leb a b = true -> str_leb b a = true -> a = b.
Proof.
  revert b. induction a as [|x a IH]; intros [|y b]; simpl; try congruence.
  intros Hab Hba.
  apply orb_true_iff in Hab as [Hab|Hab], Hba as [Hba|Hba];
    try apply andb_true_iff in Hab as [Hxy Hab];
    try apply andb_true_iff in Hba as [Hyx Hba];
    try apply N.ltb_lt in Hab; try apply N.ltb_lt in Hba;
    try apply N.eqb_eq in Hxy; try apply N.eqb_eq in Hyx; subst;
    try lia.
  f_equal. exact (IH b Hab Hba).
Qed.

Section SortByOrder.
Context {A : Type} (le : A -> A -> bool).
Hypothesis le_total : forall a b, le a b = false -> le b a = true.
Hypothesis le_trans :
  forall a b c, le a b = true -> le b c = true -> le a c = true.

Local Abbreviation below := (fun a b : A => le a b = true).

Lemma insert_sorted_permutation (x : A) (l : list A) :
  Permutation (insert_sorted le x l) (x :: l).
Proof.
  induction l as [|y l IH]; simpl; [reflexivity|].
  destruct (le x y); [reflexivity|]. rewrite IH. apply perm_swap.
Qed.

Lemma stable_sort_permutation (l : list A) : Permutation (stable_sort le l) l.
Proof.
  induction l as [|x l IH]; simpl; [reflexivity|].
  rewrite insert_sorted_permutation. now apply perm_skip.
Qed.

Lemma insert_sorted_below (x : A) (l : list A) :
  StronglySorted below l -> StronglySorted below (insert_sorted le x l).
Proof.
  induction 1 as [|y l Hs IH Hy]; simpl.
  - repeat constructor.
  - destruct (le x y) eqn:Hxy.
    + constructor; [constructor; assumption|].
      constructor; [exact Hxy|].
      eapply Forall_impl; [exact Hy|]. simpl. intros z Hz.
      exact (le_trans _ _ _ Hxy Hz).
    + constructor; [exact IH|].
      rewrite (insert_sorted_permutation x l).
      constructor; [exact (le_total _ _ Hxy) | exact Hy].
Qed.

Lemma stable_sort_below (l : list A) : StronglySorted below (stable_sort le l).
Proof.
  induction l as [|x l IH]; simpl; [constructor|].
  now apply insert_sorted_below.
Qed.

(** Two sorted arrangements of the same elements are the same list when the
    order tells the elements apart. *)
Lemma sorted_permutation_unique (l1 l2 : list A) :
  StronglySorted below l1 -> StronglySorted below l2 ->
  Permutation l1 l2 ->
  (forall a b, In a l1 -> In b l1 ->
               le a b = true -> le b a = true -> a = b) ->
  l1 = l2.
Proof.
  intros Hs1. revert l2.
  induction Hs1 as [|x l1 Hs1 IH Hx]; intros l2 Hs2 Hp Hanti.
  - apply Permutation_nil in Hp. congruence.
  - destruct Hs2 as [|y l2 Hs2 Hy].
    + symmetry in Hp. apply Permutation_nil in Hp. discriminate.
    + assert (x = y) as <-.
      { assert (Hin1 : In y (x :: l1)).
        { eapply Permutation_in; [symmetry; exact Hp | now left]. }
        assert (Hin2 : In x (y :: l2)).
        { eapply Permutation_in; [exact Hp | now left]. }
        destruct Hin1 as [Heq|Hin1]; [exact Heq|].
        destruct Hin2 as [Heq|Hin2]; [congruence|].
        rewrite Forall_forall in Hx, Hy. apply list_elem_of_In in Hin1 as E1.
        apply list_elem_of_In in Hin2 as E2.
        apply Hanti; [now left | now right | exact (Hx _ E1) | exact (Hy _ E2)]. }
      f_equal. apply IH; [exact Hs2 | |].
      * eapply Permutation_cons_inv. exact Hp.
      * intros a b Ha Hb. apply Hanti; now right.
Qed.

End SortByOrder.

(** ** The merger, beyond two fragments *)

Lemma filter_permutation {A : Type} (f : A -> bool) (l1 l2 : list A) :
  Permutation l1 l2 -> Permutation (List.filter f l1) (List.filter f l2).
Proof.
  induction 1 as [|x l1 l2 _ IH|x y l|l1 l2 l3 _ IH1 _ IH2]; simpl.
  - constructor.
  - destruct (f x); [now apply perm_skip | exact IH].
  - destruct (f x), (f y); try reflexivity. apply perm_swap.
  - etransitivity; eassumption.
Qed.

Lemma nodup_map_injective {A B : Type} (f : A -> B) (l : list A) (a b : A) :
  NoDup (map f l) -> In a l -> In b l -> f a = f b -> a = b.
Proof.
  induction l as [|x l IH]; simpl; [contradiction|].
  intros Hnd Ha Hb Hf. apply NoDup_cons in Hnd as [Hx Hnd].
  destruct Ha as [->|Ha], Hb as [->|Hb].
  - reflexivity.
  - exfalso. apply Hx. rewrite Hf. apply list_elem_of_In, in_map, Hb.
  - exfalso. apply Hx. rewrite <- Hf. apply list_elem_of_In, in_map, Ha.
  - exact (IH Hnd Ha Hb Hf).
Qed.

Lemma json_files_permutation (listing : list (pystr * Fragment)) :
  Permutation (json_files listing)
    (List.filter
       (fun f => endswith (lit ".json") (fst f)
                 && startswith (lit "message_") (fst f))
       listing).
Proof. apply stable_sort_permutation. Qed.

(** X15: the merged messages are exactly the messages of the files of the
    folder whose name starts with [message_] and ends with [.json] and
    whose repaired title is the title of the conversation: a file with
    another name or another title contributes nothing, and nothing of a
    matching file is lost. *)
Theorem all_messages_membership
  (conv : Conversation) (listing : list (pystr * Fragment)) (m : Message) :
  In m (all_messages conv listing)
  <-> exists name data,
        In (name, data) listing
        /\ endswith (lit ".json") name = true
        /\ startswith (lit "message_") name = true
        /\ fixed (title data) = conv_title conv
        /\ In m (default [] (messages data)).
Proof.
  unfold all_messages.
  assert (Hperm : forall l, In m (stable_sort key_le l) <-> In m l).
  { intros l. split; apply Permutation_in;
      [|symmetry]; apply stable_sort_permutation. }
  rewrite Hperm. unfold collect. rewrite in_flat_map. split.
  - intros (data & Hdata & Hm).
    apply in_map_iff in Hdata as ([name data'] & Heq & Hin).
    simpl in Heq. subst data'.
    apply (Permutation_in _ (json_files_permutation listing)) in Hin.
    apply filter_In in Hin as [Hin Hname]. cbn [fst] in Hname.
    apply andb_true_iff in Hname as [Hend Hstart].
    unfold fragment_messages in Hm.
    destruct (str_eqb (fixed (title data)) (conv_title conv)) eqn:Ht;
      [|destruct Hm].
    apply bool_decide_eq_true in Ht.
    exists name, data. repeat split; assumption.
  - intros (name & data & Hin & Hend & Hstart & Ht & Hm).
    exists data. split.
    + apply in_map_iff. exists (name, data). split; [reflexivity|].
      apply (Permutation_in _ (Permutation_sym (json_files_permutation listing))).
      apply filter_In. split; [exact Hin|]. cbn [fst].
      rewrite Hend, Hstart. reflexivity.
    + unfold fragment_messages. rewrite Ht, str_eqb_refl. exact Hm.
Qed.

Lemma json_files_order_free (l1 l2 : list (pystr * Fragment)) :
  Permutation l1 l2 -> NoDup (map fst l1) -> json_files l1 = json_files l2.
Proof.
  intros Hp Hnd. unfold json_files.
  apply (sorted_permutation_unique name_le).
  - apply (stable_sort_below name_le).
    + intros a b. apply str_leb_total.
    + intros a b c. apply str_leb_trans.
  - apply (stable_sort_below name_le).
    + intros a b. apply str_leb_total.
    + intros a b c. apply str_leb_trans.
  - rewrite !stable_sort_permutation. now apply filter_permutation.
  - intros a b Ha Hb Hab Hba.
    apply (Permutation_in _ (stable_sort_permutation _ _)) in Ha, Hb.
    apply filter_In in Ha as [Ha _], Hb as [Hb _].
    apply (nodup_map_injective fst l1 a b Hnd Ha Hb).
    now apply str_leb_antisym.
Qed.

(** X16: the order in which [os.listdir] returns the names does not
    matter: for a folder, whose names are all different, the merged
    message sequence is the same for every order of the listing. *)
Theorem all_messages_ignores_listing_order
  (conv : Conversation) (l1 l2 : list (pystr * Fragment)) :
  Permutation l1 l2 -> NoDup (map fst l1) ->
  all_messages conv l1 = all_messages conv l2.
Proof.
  intros Hp Hnd. unfold all_messages.
  rewrite (json_files_order_free l1 l2 Hp Hnd). reflexivity.
Qed.

Lemma all_messages_ignores_listing_order_witness :
  all_messages
    {| path := lit "inbox/ann_1"; conv_title := lit "Ann";
       folder_id := lit "ann_1"; participants := [lit "Ann"; lit "Me"] |}
    [(lit "message_2.json", fragment_two); (lit "message_1.json", fragment_one)]
  = all_messages
      {| path := lit "inbox/ann_1"; conv_title := lit "Ann";
         folder_id := lit "ann_1"; participants := [lit "Ann"; lit "Me"] |}
      [(lit "message_1.json", fragment_one); (lit "message_2.json", fragment_two)].
Proof.
  apply all_messages_ignores_listing_order.
  - apply perm_swap.
  - apply (bool_decide_unpack _). vm_compute. exact I.
Defined.

(** X17: the merged sequence is determined by its two properties: a list
    whose timestamps never decrease and in which the messages of each
    timestamp are those collected from the files, in the order of
    collection, is the merged sequence, whatever stable sort produced it. *)
Theorem all_messages_is_the_stable_order
  (conv : Conversation) (listing : list (pystr * Fragment))
  (l : list Message) :
  StronglySorted (ordered_on sort_key) l ->
  (forall k, with_key sort_key k l
             = with_key sort_key k
                 (collect (conv_title conv) (map snd (json_files listing)))) ->
  l = all_messages conv listing.
Proof.
  intros Hs Hk. unfold all_messages.
  apply (stable_sorted_unique sort_key); [exact Hs | |].
  - apply stable_sort_ordered.
  - intros k. rewrite Hk. symmetry. apply stable_sort_stable.
Qed.

Lemma all_messages_is_the_stable_order_witness :
  [stamped None "b"; stamped (Some 1000) "e"; stamped (Some 2000) "c";
   stamped (Some 2000) "d"; stamped (Some 5000) "a"]
  = all_messages
      {| path := lit "inbox/ann_1"; conv_title := lit "Ann";
         folder_id := lit "ann_1"; participants := [lit "Ann"; lit "Me"] |}
      [(lit "message_1.json", fragment_one); (lit "message_2.json", fragment_two)].
Proof.
  apply all_messages_is_the_stable_order.
  - repeat constructor; unfold ordered_on; vm_compute; discriminate.
  - intros k. unfold with_key.
    change (collect _ _)
      with [stamped (Some 5000) "a"; stamped None "b"; stamped (Some 2000) "c";
            stamped (Some 2000) "d"; stamped (Some 1000) "e"].
    cbn [List.filter sort_key stamped timestamp_ms default]. unfold id.
    destruct (Z.eqb_spec 0 k), (Z.eqb_spec 1000 k), (Z.eqb_spec 2000 k),
      (Z.eqb_spec 5000 k); try reflexivity; lia.
Defined.

(** ** Discovery *)

Section DiscoveryFacts.
Context `{Host}.

(** The conversations of a given sort key, in their order. *)
Local Abbreviation titled k l :=
  (List.filter (fun c => bool_decide (title_key c = k)) l).

Lemma title_le_total (a b : Conversation) :
  title_le a b = false -> title_le b a = true.
Proof. apply str_leb_total. Qed.

Lemma title_le_trans (a b c : Conversation) :
  title_le a b = true -> title_le b c = true -> title_le a c = true.
Proof. apply str_leb_trans. Qed.

Lemma insert_sorted_titled (k : pystr) (x : Conversation)
  (l : list Conversation) :
  titled k (insert_sorted title_le x l) = titled k (x :: l).
Proof.
  induction l as [|y l IH]; [reflexivity|].
  cbn [insert_sorted]. destruct (title_le x y) eqn:Hxy; [reflexivity|].
  assert (Hne : title_key x <> title_key y).
  { intros Heq. unfold title_le in Hxy.
    rewrite Heq, str_leb_refl in Hxy. discriminate. }
  cbn [List.filter] in *. rewrite IH.
  repeat case_bool_decide; try reflexivity; congruence.
Qed.

Lemma describe_root (e : WalkEntry) (c : Conversation) :
  describe e = Some c ->
  path c = root e /\ folder_id c = basename (root e)
  /\ lit "message_1.json" ∈ files e
  /\ exists data,
       message_1 e = Some data
       /\ conv_title c
          = fixed (Some (default (lit "Unknown") (file_title data)))
       /\ participant_names (default [] (file_participants data))
          = Some (participants c).
Proof.
  unfold describe. case_bool_decide as Hf; [|discriminate].
  destruct (message_1 e) as [data|]; [|discriminate].
  destruct (participant_names (default [] (file_participants data)))
    as [ps|] eqn:Hp; [|discriminate].
  intros [= <-]. simpl. repeat split; try assumption.
  exists data. repeat split. exact Hp.
Qed.

Lemma basename_no_slash (p : pystr) : ch "/" ∉ basename p.
Proof.
  unfold basename.
  pose proof (split_pieces (ch "/") p) as Hp.
  pose proof (split_nonempty (ch "/") p) as Hne.
  rewrite Forall_forall in Hp.
  destruct (exists_last Hne) as (l' & a & Heq).
  rewrite Heq, last_last.
  destruct (Hp a) as [Hno _]; [|exact Hno].
  rewrite Heq. apply elem_of_app. right. left.
Qed.

(** X18: [find_conversations] returns the described folders sorted by
    lowercased title: the titles never decrease, no folder is added, lost
    or repeated, and conversations whose lowercased titles are equal keep
    the order in which the walk met them. *)
Theorem find_conversations_sorted (walk : list WalkEntry) :
  StronglySorted (fun a b => str_leb (title_key a) (title_key b) = true)
    (find_conversations walk)
  /\ Permutation (find_conversations walk) (omap describe walk)
  /\ (length (find_conversations walk) <= length walk)%nat
  /\ (forall k, titled k (find_conversations walk)
                = titled k (omap describe walk)).
Proof.
  unfold find_conversations. split; [|split; [|split]].
  - apply (stable_sort_below title_le title_le_total title_le_trans).
  - apply stable_sort_permutation.
  - rewrite (Permutation_length (stable_sort_permutation title_le _)).
    clear. induction walk as [|e walk IH]; [reflexivity|].
    cbn [omap list_omap]. destruct (describe e); simpl; lia.
  - intros k. induction (omap describe walk) as [|x l IH]; [reflexivity|].
    cbn [stable_sort]. rewrite insert_sorted_titled.
    cbn [List.filter]. rewrite IH. reflexivity.
Qed.

(** The names of line 59: one for each participant, each the repaired
    value of its [name] key, which every participant has. *)
Lemma participant_names_repaired (ps : list (option pystr))
  (names : list pystr) :
  participant_names ps = Some names ->
  Forall2 (fun p n => exists raw, p = Some raw /\ n = fixed (Some raw))
    ps names.
Proof.
  revert names. induction ps as [|[raw|] ps IH]; simpl; intros names Hp.
  - injection Hp as <-. constructor.
  - destruct (participant_names ps) as [ns|]; [|discriminate].
    injection Hp as <-. constructor; [|apply IH; reflexivity].
    exists raw. split; reflexivity.
  - discriminate.
Qed.

(** X19: every conversation found comes from a walked directory that lists
    [message_1.json] and whose file could be read, with a name for each
    participant: its participants are the repaired names, one for one; its
    title is the repaired title, or Unknown; its path is that directory,
    and its folder identifier is the last component of the path and holds
    no slash. *)
Theorem find_conversations_origin (walk : list WalkEntry) (c : Conversation) :
  In c (find_conversations walk) ->
  (ch "/" ∉ folder_id c)
  /\ exists e data,
       In e walk /\ path c = root e /\ folder_id c = basename (root e)
       /\ lit "message_1.json" ∈ files e
       /\ message_1 e = Some data
       /\ conv_title c
          = fixed (Some (default (lit "Unknown") (file_title data)))
       /\ Forall is_Some (default [] (file_participants data))
       /\ Forall2 (fun p n => exists raw, p = Some raw /\ n = fixed (Some raw))
            (default [] (file_participants data)) (participants c)
       /\ length (participants c)
          = length (default [] (file_participants data)).
Proof.
  intros Hin. unfold find_conversations in Hin.
  apply (Permutation_in _ (stable_sort_permutation title_le _)) in Hin.
  apply list_elem_of_In, list_elem_of_omap in Hin as (e & He & Hd).
  destruct (describe_root e c Hd)
    as (Hpath & Hid & Hfile & data & Hm & Htitle & Hp).
  apply participant_names_repaired in Hp.
  split; [rewrite Hid; apply basename_no_slash|].
  exists e, data.
  split; [now apply list_elem_of_In|]. split; [exact Hpath|].
  split; [exact Hid|]. split; [exact Hfile|]. split; [exact Hm|].
  split; [exact Htitle|]. split; [|split; [exact Hp|]].
  - clear -Hp. induction Hp as [|p n ps ns (raw & -> & _) _ IH];
      constructor; [eexists; reflexivity | exact IH].
  - symmetry. clear -Hp. induction Hp; simpl; congruence.
Qed.

End DiscoveryFacts.

(** ** Selection *)

Section SelectionFacts.
Variable py_int : pystr -> option Z.

Lemma split_without_separator (c : N) (s : pystr) :
  c ∉ s -> split c s = [s].
Proof.
  induction s as [|x s IH]; [reflexivity|]. intros Hno. simpl.
  destruct (N.eqb_spec x c) as [->|Hne]; [exfalso; apply Hno; left|].
  rewrite IH; [reflexivity|]. intros Hin. apply Hno. now right.
Qed.

Lemma selection_single (conversations : list Conversation) (idx : pystr)
  (i : Z) :
  ch "," ∉ idx -> py_int (strip idx) = Some i ->
  selection py_int conversations idx
  = (fun c => [c]) <$> py_index conversations (i - 1).
Proof.
  intros Hno Hi. unfold selection.
  rewrite (split_without_separator _ _ Hno). simpl. rewrite Hi.
  destruct (py_index conversations (i - 1)); reflexivity.
Qed.

(** X20: an entry of the selection is an index from one, with the negative
    indexes of Python behind it.  For a single entry that parses to [i]
    among [n] conversations: from 1 to [n] it selects conversation [i]; 0
    selects the last conversation and a negative entry above [-n] counts
    from the end; anything else makes the selection invalid. *)
Theorem selection_index_semantics
  (conversations : list Conversation) (idx : pystr) (i : Z) :
  ch "," ∉ idx -> py_int (strip idx) = Some i ->
  (1 <= i <= Z.of_nat (length conversations) ->
   selection py_int conversations idx
   = (fun c => [c]) <$> conversations !! Z.to_nat (i - 1)
   /\ is_Some (selection py_int conversations idx))
  /\ (- Z.of_nat (length conversations) < i <= 0 ->
      selection py_int conversations idx
      = (fun c => [c])
        <$> conversations !! Z.to_nat (Z.of_nat (length conversations) + i - 1)
      /\ is_Some (selection py_int conversations idx))
  /\ (i = 0 -> conversations <> [] ->
      selection py_int conversations idx
      = Some [List.last conversations
                {| path := []; conv_title := []; folder_id := [];
                   participants := [] |}])
  /\ (Z.of_nat (length conversations) < i
      \/ i <= - Z.of_nat (length conversations) ->
      selection py_int conversations idx = None).
Proof.
  intros Hno Hi. rewrite (selection_single _ _ _ Hno Hi).
  unfold py_index. split; [|split; [|split]].
  - intros Hr. rewrite (proj2 (Z.leb_le _ _)) by lia.
    split; [reflexivity|].
    destruct (lookup_lt_is_Some_2 conversations (Z.to_nat (i - 1)))
      as [c Hc]; [lia|].
    rewrite Hc. eexists. reflexivity.
  - intros Hr. rewrite (proj2 (Z.leb_gt _ _)) by lia.
    rewrite (proj2 (Z.leb_le _ _)) by lia.
    replace (Z.of_nat (length conversations) + (i - 1))
      with (Z.of_nat (length conversations) + i - 1) by lia.
    split; [reflexivity|].
    destruct (lookup_lt_is_Some_2 conversations
                (Z.to_nat (Z.of_nat (length conversations) + i - 1)))
      as [c Hc]; [lia|].
    rewrite Hc. eexists. reflexivity.
  - intros -> Hne. simpl.
    destruct (exists_last Hne) as (l' & c & ->).
    rewrite last_last, length_app. simpl.
    rewrite (proj2 (Z.leb_le _ _)) by lia.
    replace (Z.to_nat (Z.of_nat (length l' + 1) + (0 - 1)))
      with (length l') by lia.
    rewrite (list_lookup_middle l' [] c (length l') eq_refl). reflexivity.
  - intros [Hr|Hr].
    + rewrite (proj2 (Z.leb_le _ _)) by lia.
      rewrite lookup_ge_None_2 by lia. reflexivity.
    + rewrite (proj2 (Z.leb_gt _ _)) by lia.
      rewrite (proj2 (Z.leb_gt _ _)) by lia. reflexivity.
Qed.

End SelectionFacts.

(** The walk of the example: the two readable conversations, by title
    without regard to case. *)
Example find_conversations_example :
  find_conversations (H := ascii_utc_host) walk_example = [conv_ann; conv_zoe].
Proof. vm_compute. reflexivity. Qed.

(** The conversation of Ann among those found: its folder is the directory
    walked, both its participants have their names. *)
Lemma find_conversations_origin_witness :
  (ch "/" ∉ lit "ann_1")
  /\ exists e data,
       In e walk_example /\ lit "inbox/ann_1" = root e
       /\ lit "ann_1" = basename (root e)
       /\ lit "message_1.json" ∈ files e
       /\ message_1 e = Some data
       /\ lit "ann"
          = fixed (Some (default (lit "Unknown") (file_title data)))
       /\ Forall is_Some (default [] (file_participants data))
       /\ Forall2 (fun p n => exists raw, p = Some raw /\ n = fixed (Some raw))
            (default [] (file_participants data)) [lit "Ann"; lit "Me"]
       /\ 2%nat = length (default [] (file_participants data)).
Proof.
  exact (find_conversations_origin (H := ascii_utc_host)
           walk_example conv_ann
           ltac:(vm_compute; left; reflexivity)).
Defined.

(** Among two conversations the entry 0, blanks around it, selects the
    second. *)
Lemma selection_index_semantics_witness :
  selection int_of_str [conv_ann; conv_zoe] (lit " 0 ") = Some [conv_zoe].
Proof.
  apply (proj1 (proj2 (proj2
           (selection_index_semantics int_of_str [conv_ann; conv_zoe]
              (lit " 0 ") 0
              ltac:(apply (bool_decide_unpack _); vm_compute; exact I)
              ltac:(reflexivity)))));
    [reflexivity | discriminate].
Defined.

(** ** Metadata blocks, marks and empty transcripts *)

Section PolicyFacts.
Context `{Host}.

(** X21: under the densities 1, 2 and 3 a share payload never touches the
    content, and the blocks are nested: the Minimal block is the link line;
    the Full block is the link line, followed by the caption line when the
    repaired caption is not empty and by nothing otherwise; the Optimized
    block is the link line, followed by the digest line when the digest is
    not empty and by nothing otherwise; with an empty caption the three
    blocks are the same. *)
Theorem share_blocks_nested (msg : Message) (content : pystr) :
  dict_truthy (share_data msg) = true ->
  fst (with_share (lit "1") msg content) = content
  /\ fst (with_share (lit "2") msg content) = content
  /\ fst (with_share (lit "3") msg content) = content
  /\ snd (with_share (lit "3") msg content) = link_line (share_link msg)
  /\ snd (with_share (lit "1") msg content)
     = snd (with_share (lit "3") msg content)
       ++ match share_caption msg with
          | [] => []
          | _ :: _ => branch ++ lit "CAPTION]: " ++ share_caption msg
          end
  /\ snd (with_share (lit "2") msg content)
     = snd (with_share (lit "3") msg content)
       ++ match short_cap (share_caption msg) with
          | [] => []
          | _ :: _ =>
              branch ++ lit "CAPTION_DIGEST]: "
              ++ short_cap (share_caption msg)
          end
  /\ (share_caption msg = [] ->
      snd (with_share (lit "1") msg content) = link_line (share_link msg)
      /\ snd (with_share (lit "2") msg content) = link_line (share_link msg)).
Proof.
  intros Hs. unfold with_share. rewrite Hs.
  change (str_eqb (lit "1") (lit "1")) with true.
  change (str_eqb (lit "2") (lit "1")) with false.
  change (str_eqb (lit "2") (lit "2")) with true.
  change (str_eqb (lit "3") (lit "1")) with false.
  change (str_eqb (lit "3") (lit "2")) with false.
  change (str_eqb (lit "3") (lit "3")) with true.
  cbn [fst snd].
  split; [reflexivity|]. split; [reflexivity|]. split; [reflexivity|].
  split; [reflexivity|].
  split; [destruct (share_caption msg); reflexivity|].
  split; [destruct (short_cap (share_caption msg)); reflexivity|].
  intros Hcap. rewrite Hcap.
  assert (Hc : short_cap [] = []).
  { unfold short_cap, clean_caption. cbn [sub_hashtags split List.filter].
    destruct (is_spam []); reflexivity. }
  rewrite Hc. cbn [truthy]. rewrite app_nil_r. split; reflexivity.
Qed.

Lemma strip_keeps_prefix (a b : pystr) :
  a <> [] -> isspace (hd 0%N a) = false ->
  isspace (List.last a 0%N) = false ->
  exists rest, strip (a ++ b) = a ++ rest.
Proof.
  intros Hne Hhd Hlast.
  destruct (strip_run (a ++ b)) as (p & q & Hs & Hp & Hq).
  destruct p as [|x p].
  - simpl in Hs.
    apply app_eq_inv in Hs as [(k & Hk & Hq')|(k & Hk & _)].
    + destruct k as [|y k].
      * rewrite app_nil_r in Hk. rewrite <- Hk. exists [].
        now rewrite app_nil_r.
      * exfalso.
        destruct (exists_last (l := y :: k) ltac:(discriminate))
          as (l' & z & Hz).
        rewrite Hk, Hz, app_assoc, last_last in Hlast.
        rewrite Forall_forall in Hq.
        assert (Hin : z ∈ q).
        { rewrite Hq', Hz. apply elem_of_app. left.
          apply elem_of_app. right. left. }
        specialize (Hq _ Hin). congruence.
    + rewrite Hk. exists k. reflexivity.
  - exfalso. destruct a as [|y a]; [congruence|].
    simpl in Hs. injection Hs as -> _. simpl in Hhd.
    apply Forall_cons in Hp as [Hx _]. congruence.
Qed.

(** X22: the marks of a message are always visible: with photos the
    rendered content starts with the photo marker, and with the edited
    flag it ends with the edited mark, whatever the other fields and the
    density are. *)
Theorem photo_and_edited_marks (meta_choice : pystr) (msg : Message) :
  (truthy (default [] (photos msg)) = true ->
   exists rest, final_content meta_choice msg = lit "[MEDIA: Photo]" ++ rest)
  /\ (default false (is_edited msg) = true ->
      exists front, final_content meta_choice msg = front ++ lit " (EDITED)").
Proof.
  split.
  - intros Hp. unfold final_content, with_edited, with_photos. rewrite Hp.
    destruct (strip_keeps_prefix (lit "[MEDIA: Photo]")
                (lit " " ++ fst (with_share meta_choice msg
                                   (with_call msg (classified msg)))))
      as [rest Hrest]; [discriminate | reflexivity | reflexivity |].
    change (lit "[MEDIA: Photo] " ++ ?c)
      with (lit "[MEDIA: Photo]" ++ lit " " ++ c).
    rewrite Hrest.
    destruct (default false (is_edited msg)).
    + exists (rest ++ lit " (EDITED)"). now rewrite app_assoc.
    + exists rest. reflexivity.
  - intros He. unfold final_content, with_edited. rewrite He.
    eexists. reflexivity.
Qed.

(** X23: a conversation none of whose files carries its title gives a
    transcript without any line: no message is merged and the text written
    is the header alone. *)
Theorem mismatched_titles_give_header_only
  (conv : Conversation) (user_name self_aware_input meta_choice : pystr)
  (meta_labels : dict) (listing : list (pystr * Fragment)) :
  (forall name data, In (name, data) listing ->
                     fixed (title data) <> conv_title conv) ->
  all_messages conv listing = []
  /\ text (process_single_conversation conv user_name self_aware_input
             meta_choice meta_labels listing)
     = concat (header_lines conv user_name meta_choice meta_labels).
Proof.
  intros Hmis.
  assert (Hall : all_messages conv listing = []).
  { unfold all_messages.
    assert (Hc : collect (conv_title conv) (map snd (json_files listing)) = []).
    { unfold collect.
      assert (Hin : forall f, In f (json_files listing) -> In f listing).
      { intros f Hf.
        apply (Permutation_in _ (json_files_permutation listing)) in Hf.
        apply filter_In in Hf. tauto. }
      induction (json_files listing) as [|[name data] l IH]; [reflexivity|].
      simpl. rewrite IH by (intros f Hf; apply Hin; now right).
      unfold fragment_messages.
      rewrite str_eqb_neq; [reflexivity|]. apply (Hmis name). apply Hin. now left. }
    rewrite Hc. reflexivity. }
  split; [exact Hall|].
  unfold process_single_conversation. cbn [text]. rewrite Hall.
  apply app_nil_r.
Qed.

End PolicyFacts.

(** The captioned link under the Optimized density: the link without its
    query, then the caption without its hashtag. *)
Lemma share_blocks_nested_witness :
  snd (with_share (H := ascii_utc_host) (lit "2") captioned_share (lit "look"))
  = (branch ++ lit "SHARED_LINK]: https://example.org/p/1")
    ++ branch ++ lit "CAPTION_DIGEST]: so cute".
Proof.
  exact (proj1 (proj2 (proj2 (proj2 (proj2 (proj2
           (share_blocks_nested (H := ascii_utc_host) captioned_share
              (lit "look") ltac:(vm_compute; reflexivity)))))))).
Defined.

Lemma photo_and_edited_marks_witness :
  exists front,
    final_content (H := ascii_utc_host) (lit "2")
      {| timestamp_ms := Some 1000; sender_name := Some (lit "Alice");
         content := Some (lit "hello");
         is_unsent := None; is_geoblocked_for_viewer := None; sticker := None;
         audio_files := None; call_duration := None; share := None;
         photos := None; is_edited := Some true; reply_to_source := None;
         reactions := None |}
    = front ++ lit " (EDITED)".
Proof.
  apply (proj2 (photo_and_edited_marks (H := ascii_utc_host) (lit "2") _)).
  reflexivity.
Defined.

(** The folder of Ann read for a conversation titled Bea. *)
Lemma mismatched_titles_give_header_only_witness :
  all_messages
    {| path := lit "inbox/ann_1"; conv_title := lit "Bea";
       folder_id := lit "ann_1"; participants := [] |}
    [(lit "message_1.json", fragment_one); (lit "message_2.json", fragment_two)]
  = [].
Proof.
  apply (proj1 (mismatched_titles_give_header_only (H := ascii_utc_host)
                  {| path := lit "inbox/ann_1"; conv_title := lit "Bea";
                     folder_id := lit "ann_1"; participants := [] |}
                  [] (lit "n") (lit "2") main_meta_labels
                  [(lit "message_1.json", fragment_one);
                   (lit "message_2.json", fragment_two)]
                  ltac:(intros name data [[= <- <-]|[[= <- <-]|[]]];
                        vm_compute; discriminate))).
Defined.
